(** * AX-TrafficAnalyzer: startup, teardown, reconnect and store behaviour

    A shallow embedding of the TypeScript sources of the desktop shell
    ([desktop/electron/main.ts]), the container entry point
    ([docker/entrypoint.sh]), the web UI library code ([lib/websocket.ts],
    [lib/api.ts]) and stores ([stores/trafficStore.ts],
    [stores/authStore.ts]) and the mobile auth store and API client
    ([mobile/src/stores/authStore.ts], [mobile/src/api/client.ts]), with
    the properties the design document states about them and further
    properties of the same code. *)

From stdpp Require Import base strings gmap list pretty.
From Stdlib Require Import ZArith Lia.

Local Open Scope string_scope.
Local Open Scope Z_scope.
Local Open Scope list_scope.

(** ** Effectful code: state, observable effects, exceptions, process exit *)

Module Eff.

(** How a JavaScript computation ends: it returns, it throws (the message
    is the thrown value as a template string renders it), or the process
    is ended by [app.exit(code)] or [app.quit()]. *)
Inductive outcome (A : Type) : Type :=
| Ret (a : A)
| Throw (msg : string)
| Exit (code : Z).
Arguments Ret {A} a.
Arguments Throw {A} msg.
Arguments Exit {A} code.

Section Monad.
Context {S E : Type}.

(** A computation reads and writes the state [S] and emits effects [E]. *)
Definition M (A : Type) : Type := S -> outcome A * S * list E.

Definition ret {A} (a : A) : M A := fun s => (Ret a, s, []).

Definition bind {A B} (m : M A) (k : A -> M B) : M B :=
  fun s =>
    match m s with
    | (Ret a, s1, t1) =>
        let '(o, s2, t2) := k a s1 in (o, s2, t1 ++ t2)
    | (Throw msg, s1, t1) => (Throw msg, s1, t1)
    | (Exit c, s1, t1) => (Exit c, s1, t1)
    end.

Definition emit (e : E) : M unit := fun s => (Ret tt, s, [e]).
Definition emit_all (es : list E) : M unit := fun s => (Ret tt, s, es).
Definition throw {A} (msg : string) : M A := fun s => (Throw msg, s, []).
Definition exit {A} (code : Z) : M A := fun s => (Exit code, s, []).
Definition get : M S := fun s => (Ret s, s, []).
Definition put (s : S) : M unit := fun _ => (Ret tt, s, []).
Definition modify (f : S -> S) : M unit := fun s => (Ret tt, f s, []).

(** [try { m } catch (err) { h err }]: only a thrown exception reaches
    the handler. *)
Definition try_catch {A} (m : M A) (h : string -> M A) : M A :=
  fun s =>
    match m s with
    | (Throw msg, s1, t1) =>
        let '(o, s2, t2) := h msg s1 in (o, s2, t1 ++ t2)
    | r => r
    end.

Definition when (b : bool) (m : M unit) : M unit :=
  if b then m else ret tt.
End Monad.

Arguments M : clear implicits.

Definition out_of {S E A} (r : outcome A * S * list E) : outcome A := r.1.1.
Definition state_of {S E A} (r : outcome A * S * list E) : S := r.1.2.
Definition trace_of {S E A} (r : outcome A * S * list E) : list E := r.2.

(** The exit code a run ends the process with, if it does. *)
Definition exit_code {S E A} (r : outcome A * S * list E) : option Z :=
  match out_of r with Exit c => Some c | _ => None end.

End Eff.

#[global] Instance M_ret {S E} : MRet (Eff.M S E) := fun A a => Eff.ret a.
#[global] Instance M_bind {S E} : MBind (Eff.M S E) := fun A B k m => Eff.bind m k.

(** ** Checking that stops at the first failure *)

Module FailFast.

(** Of a list of checks, those that run when checking stops at the first
    one that fails: the checks up to and including that one. *)
Fixpoint through_first_failure {A} (fails : A -> bool) (l : list A)
  : list A :=
  match l with
  | [] => []
  | x :: rest =>
      if fails x then [x] else x :: through_first_failure fails rest
  end.

End FailFast.

(** ** The desktop shell: [desktop/electron/main.ts] *)

Module Desktop.
Import Eff.

(** The subsystems the main process brings up. *)
Inductive subsystem : Type := Backend | Window | TrayIcon | Updater.

#[global] Instance subsystem_eq_dec : EqDecision subsystem.
Proof. solve_decision. Defined.

(** What the main process does to the outside world. *)
Inductive effect : Type :=
| LogInfo (msg : string)
| LogError (msg : string)
| ExistsSync (path : string)
| Spawn (cmd : string) (args : list string)
| Fetch (url : string)
| Kill (signal : string)
| NewBrowserWindow
| NewTray
| CheckForUpdates.

(** The module-level variables of main.ts. *)
Record state : Type := mkState {
  mainWindow : option unit;
  tray : option unit;
  backendProcess : option string;   (* the spawned command, or null *)
  isQuitting : bool
}.

Definition init : state :=
  {| mainWindow := None; tray := None; backendProcess := None;
     isQuitting := false |}.

Definition set_mainWindow (w : option unit) (s : state) : state :=
  {| mainWindow := w; tray := tray s; backendProcess := backendProcess s;
     isQuitting := isQuitting s |}.
Definition set_tray (t : option unit) (s : state) : state :=
  {| mainWindow := mainWindow s; tray := t;
     backendProcess := backendProcess s; isQuitting := isQuitting s |}.
Definition set_backendProcess (p : option string) (s : state) : state :=
  {| mainWindow := mainWindow s; tray := tray s; backendProcess := p;
     isQuitting := isQuitting s |}.
Definition set_isQuitting (b : bool) (s : state) : state :=
  {| mainWindow := mainWindow s; tray := tray s;
     backendProcess := backendProcess s; isQuitting := b |}.

(** What the code reads from its surroundings.  [majorVersion] is
    [parseInt(nodeVersion.split('.')[0], 10)]; [healthPolls] lists the
    answers of the successive polls of the health endpoint that fit in
    the timeout of [waitForBackend] ([true] for [response.ok], [false]
    for any other answer or a failed fetch); the three [..Throws] fields
    hold, when the Electron constructors called by the step throw, the
    thrown error as a template string renders it. *)
Record env : Type := mkEnv {
  nodeVersion : string;
  majorVersion : Z;
  isDev : bool;
  dirname : string;
  resourcesPath : string;
  existsSync : string -> bool;
  healthPolls : list bool;
  createWindowThrows : option string;
  createTrayThrows : option string;
  autoUpdaterThrows : option string
}.

Abbreviation M := (Eff.M state effect).

Definition BACKEND_PORT : string := "8443".

(** [path.join], without the normalisation of [..] segments. *)
Definition path_join (parts : list string) : string :=
  String.concat "/" parts.

Definition newline : string := String (Ascii.ascii_of_nat 10) "".

(** Electron's [dialog] has [showErrorBox] and no [showErrorBoxSync]:
    calling the missing method throws this [TypeError] (the exact wording
    depends on how the compiled code names the import). *)
Definition no_showErrorBoxSync : string :=
  "TypeError: dialog.showErrorBoxSync is not a function".

(** [failFast]: the line is logged, then [dialog.showErrorBoxSync(...)]
    throws; no box is shown and the [app.exit(1)] after it is not
    reached. *)
Definition failFast {A} (title message : string) : M A :=
  emit (LogError ("[FAIL-FAST] " +:+ title +:+ ": " +:+ message));;
  throw no_showErrorBoxSync.

Definition getBackendPath (e : env) : string :=
  if isDev e then path_join [dirname e; "../../src/community/main.py"]
  else path_join [resourcesPath e; "backend"; "ax-traffic-analyzer"].

Definition getUIPath (e : env) : string :=
  if isDev e then path_join [dirname e; "../../src/community/ui/dist/index.html"]
  else path_join [resourcesPath e; "ui"; "index.html"].

(** The three checks of [checkDependencies], one definition each. *)
Definition checkNode (e : env) : M unit :=
  (if majorVersion e <? 18 then
     failFast "Node.js Version Too Old"
       ("Node.js 18+ required. Found: " +:+ nodeVersion e +:+ newline +:+
        newline +:+ "Install from: https://nodejs.org/")
   else mret tt);;
  emit (LogInfo ("[STARTUP] Node.js version OK: " +:+ nodeVersion e)).

Definition checkBackendBundle (e : env) : M unit :=
  if negb (isDev e) then
    let backendPath := getBackendPath e in
    emit (ExistsSync backendPath);;
    (if negb (existsSync e backendPath) then
       failFast "Backend Not Found"
         ("Backend bundle missing at: " +:+ backendPath +:+ newline +:+
          newline +:+ "Run: npm run bundle-backend")
     else mret tt);;
    emit (LogInfo ("[STARTUP] Backend bundle found: " +:+ backendPath))
  else mret tt.

Definition checkUI (e : env) : M unit :=
  let uiPath := getUIPath e in
  emit (ExistsSync uiPath);;
  (if negb (existsSync e uiPath) then
     failFast "UI Not Found"
       ("UI bundle missing at: " +:+ uiPath +:+ newline +:+ newline +:+
        "Run: cd src/community/ui && npm run build")
   else mret tt);;
  emit (LogInfo ("[STARTUP] UI bundle found: " +:+ uiPath)).

Definition checkDependencies (e : env) : M unit :=
  emit (LogInfo "[STARTUP] Checking dependencies...");;
  checkNode e;;
  checkBackendBundle e;;
  checkUI e.

Definition health_url : string :=
  "http://localhost:" +:+ BACKEND_PORT +:+ "/api/v1/health".

(** The polling loop of [waitForBackend], one iteration per poll that
    fits in the timeout; when they are used up the loop is left and
    [failFast] is called. *)
Fixpoint waitForBackend_loop (polls : list bool) : M unit :=
  match polls with
  | [] => failFast "Backend Timeout" "Backend did not start within 30s"
  | ok :: rest =>
      emit (Fetch health_url);;
      if ok then emit (LogInfo "[BACKEND] Backend is ready!")
      else waitForBackend_loop rest
  end.

Definition waitForBackend (e : env) : M unit :=
  emit (LogInfo "[BACKEND] Waiting for backend to be ready...");;
  waitForBackend_loop (healthPolls e).

Definition startBackend (e : env) : M unit :=
  emit (LogInfo "[BACKEND] Starting backend server...");;
  let backendPath := getBackendPath e in
  (if isDev e then
     emit (Spawn "python" ["-m"; "community.main"]);;
     modify (set_backendProcess (Some "python"))
   else
     emit (Spawn backendPath []);;
     modify (set_backendProcess (Some backendPath)));;
  waitForBackend e.

Definition stopBackend : M unit :=
  s ← get;
  match backendProcess s with
  | Some _ =>
      emit (LogInfo "[BACKEND] Stopping backend...");;
      emit (Kill "SIGTERM");;
      modify (set_backendProcess None)
  | None => mret tt
  end.

Definition createWindow (e : env) : M unit :=
  emit (LogInfo "[WINDOW] Creating main window...");;
  match createWindowThrows e with
  | Some msg => throw msg
  | None => emit NewBrowserWindow;; modify (set_mainWindow (Some tt))
  end.

Definition createTray (e : env) : M unit :=
  emit (LogInfo "[TRAY] Creating system tray...");;
  match createTrayThrows e with
  | Some msg => throw msg
  | None => emit NewTray;; modify (set_tray (Some tt))
  end.

Definition setupAutoUpdater (e : env) : M unit :=
  emit (LogInfo "[UPDATER] Setting up auto-updater...");;
  match autoUpdaterThrows e with
  | Some msg => throw msg
  | None => if negb (isDev e) then emit CheckForUpdates else mret tt
  end.

(** The body of the [try] block of the [app.whenReady] handler, as the
    ordered list of its five statements. *)
Definition startup_steps (e : env) : list (M unit) :=
  [checkDependencies e; startBackend e; createWindow e; createTray e;
   setupAutoUpdater e].

Fixpoint run_steps (steps : list (M unit)) : M unit :=
  match steps with
  | [] => mret tt
  | m :: rest => m;; run_steps rest
  end.

(** The [app.whenReady().then(...)] handler. *)
Definition onReady (e : env) : M unit :=
  emit (LogInfo "[APP] Electron ready");;
  try_catch (run_steps (startup_steps e))
    (fun err =>
       emit (LogError ("[APP] Startup failed: " +:+ err));;
       exit 1).

(** The [before-quit] and [quit] handlers, and [app.quit()], which emits
    the two events and then ends the process; Electron's exit code for
    [app.quit()] is 0. *)
Definition onBeforeQuit : M unit :=
  emit (LogInfo "[APP] Before quit");;
  modify (set_isQuitting true);;
  stopBackend.

Definition onQuit : M unit := emit (LogInfo "[APP] Quit").

Definition appQuit : M unit := onBeforeQuit;; onQuit;; exit 0.

(** The click handler of the tray menu's Quit entry. *)
Definition trayQuit : M unit := modify (set_isQuitting true);; appQuit.

(** *** Reading a run *)

(** The 1-based index of the first step that does not return, when the
    steps run in order from state [s]; [k] is the index of the head. *)
Fixpoint failing_step (steps : list (M unit)) (s : state) (k : nat)
  : option nat :=
  match steps with
  | [] => None
  | m :: rest =>
      match m s with
      | (Ret _, s1, _) => failing_step rest s1 (S k)
      | _ => Some k
      end
  end.

Definition failed_step (e : env) : option nat :=
  failing_step (startup_steps e) init 1.

(** Subsystems a trace starts and stops, in the order of the trace. *)
Definition start_of (x : effect) : option subsystem :=
  match x with
  | Spawn _ _ => Some Backend
  | NewBrowserWindow => Some Window
  | NewTray => Some TrayIcon
  | CheckForUpdates => Some Updater
  | _ => None
  end.

Definition stop_of (x : effect) : option subsystem :=
  match x with
  | Kill _ => Some Backend
  | _ => None
  end.

Definition started (t : list effect) : list subsystem := omap start_of t.
Definition stopped (t : list effect) : list subsystem := omap stop_of t.

(** The unmet preconditions a trace reports: the titles of the lines
    [failFast] logs, [[FAIL-FAST] <title>: <message>]. *)
Definition title_of (x : effect) : option string :=
  match x with
  | LogError msg =>
      if String.prefix "[FAIL-FAST] " msg then
        match String.index 12 ": " msg with
        | Some k => Some (String.substring 12 (k - 12) msg)
        | None => None
        end
      else None
  | _ => None
  end.
Definition reported (t : list effect) : list string := omap title_of t.

(** The paths a trace probes with [fs.existsSync]. *)
Definition probe_of (x : effect) : option string :=
  match x with ExistsSync p => Some p | _ => None end.
Definition probed (t : list effect) : list string := omap probe_of t.

(** The words of the design for dependency validation, to compare
    [checkDependencies] with: every check that would fail in [e], in the
    order of the checks, and every path the checks would probe. *)
Definition unmet (e : env) : list string :=
  (if majorVersion e <? 18 then ["Node.js Version Too Old"] else []) ++
  (if negb (isDev e) && negb (existsSync e (getBackendPath e))
   then ["Backend Not Found"] else []) ++
  (if negb (existsSync e (getUIPath e)) then ["UI Not Found"] else []).

Definition all_probes (e : env) : list string :=
  (if isDev e then [] else [getBackendPath e]) ++ [getUIPath e].

(** The checks of [checkDependencies] as a table, in their order: the
    title a check fails with, the paths it probes, and whether it fails in
    [e].  The check of the backend bundle is part of a packaged build
    only. *)
Record check : Type := mkCheck {
  check_title : string;
  check_probes : list string;
  check_fails : bool
}.

Definition dependency_checks (e : env) : list check :=
  [{| check_title := "Node.js Version Too Old"; check_probes := [];
      check_fails := majorVersion e <? 18 |}] ++
  (if isDev e then []
   else [{| check_title := "Backend Not Found";
            check_probes := [getBackendPath e];
            check_fails := negb (existsSync e (getBackendPath e)) |}]) ++
  [{| check_title := "UI Not Found"; check_probes := [getUIPath e];
      check_fails := negb (existsSync e (getUIPath e)) |}].

(** The paths probed by the checks that run when checking stops at the
    first failure. *)
Definition probes_through_first_failure (e : env) : list string :=
  concat (check_probes <$>
          FailFast.through_first_failure check_fails (dependency_checks e)).

(** The words of the design for a failed startup, to compare [onReady]
    with: when step [k] fails, what was started by the steps before it
    is stopped in reverse order, and the process exits with code [k]. *)
Definition started_before (e : env) (k : nat) : list subsystem :=
  started (trace_of (run_steps (take (k - 1) (startup_steps e)) init)).

Definition rolls_back (e : env) (k : nat) : Prop :=
  stopped (trace_of (onReady e init)) = rev (started_before e k).

Definition exits_with_step (e : env) (k : nat) : Prop :=
  exit_code (onReady e init) = Some (Z.of_nat k).

(** Concrete surroundings: a development checkout whose backend answers
    the second health poll and whose window cannot be created; one whose
    backend never answers; a packaged build on an old Node.js with both
    bundles missing. *)
Definition env_no_window : env :=
  {| nodeVersion := "20.1.0"; majorVersion := 20; isDev := true;
     dirname := "/app"; resourcesPath := "/res";
     existsSync := fun _ => true; healthPolls := [false; true];
     createWindowThrows := Some "Error: no display"; createTrayThrows := None;
     autoUpdaterThrows := None |}.

Definition env_backend_down : env :=
  {| nodeVersion := "20.1.0"; majorVersion := 20; isDev := true;
     dirname := "/app"; resourcesPath := "/res";
     existsSync := fun _ => true; healthPolls := [false; false; false];
     createWindowThrows := None; createTrayThrows := None;
     autoUpdaterThrows := None |}.

Definition env_nothing_met : env :=
  {| nodeVersion := "16.2.0"; majorVersion := 16; isDev := false;
     dirname := "/app"; resourcesPath := "/res";
     existsSync := fun _ => false; healthPolls := [true];
     createWindowThrows := None; createTrayThrows := None;
     autoUpdaterThrows := None |}.

(** A computation is calm when it stops no subsystem, ends the process
    with no other code than 1, and leaves a backend process handle that
    is set, set. *)
Definition calm {A} (m : M A) : Prop :=
  ∀ s, stopped (trace_of (m s)) = [] ∧
       (∀ c, out_of (m s) = Exit c → c = 1) ∧
       (is_Some (backendProcess s) →
        is_Some (backendProcess (state_of (m s)))).

(** The number of requests a trace sends to the health endpoint. *)
Definition fetch_of (x : effect) : option string :=
  match x with Fetch u => Some u | _ => None end.
Definition fetched (t : list effect) : nat := length (omap fetch_of t).

(** A packaged build in which everything is in place and the backend
    answers the third health poll. *)
Definition env_ok : env :=
  {| nodeVersion := "20.1.0"; majorVersion := 20; isDev := false;
     dirname := "/app"; resourcesPath := "/res";
     existsSync := fun _ => true; healthPolls := [false; false; true; true];
     createWindowThrows := None; createTrayThrows := None;
     autoUpdaterThrows := None |}.

(** The command [startBackend] spawns. *)
Definition backend_command (e : env) : string :=
  if isDev e then "python" else getBackendPath e.

End Desktop.

(** ** The container entry point: [docker/entrypoint.sh], dependency part *)

Module Entrypoint.
Import Eff.

Inductive effect : Type :=
| CommandV (cmd : string)     (* the lookup [command -v cmd] *)
| Echo (msg : string).

Abbreviation M := (Eff.M unit effect).

Section Shell.
(** [command -v cmd]: is the command on the path? *)
Variable command_v : string -> bool.

Definition check_command (cmd pkg : string) : M unit :=
  emit (CommandV cmd);;
  if negb (command_v cmd) then
    emit (Echo ("[ENTRYPOINT] ❌ FATAL: " +:+ cmd +:+ " not found"));;
    emit (Echo ("[ENTRYPOINT] Install with: apt-get install " +:+ pkg));;
    exit 1
  else emit (Echo ("[ENTRYPOINT] ✓ " +:+ cmd +:+ " found")).

Definition required_commands : list string :=
  ["hostapd"; "dnsmasq"; "iptables"; "tcpdump"; "tshark"].

Definition validate_dependencies : M unit :=
  emit (Echo "[ENTRYPOINT] Validating system dependencies...");;
  check_command "hostapd" "hostapd";;
  check_command "dnsmasq" "dnsmasq";;
  check_command "iptables" "iptables";;
  check_command "tcpdump" "tcpdump";;
  check_command "tshark" "tshark";;
  emit (Echo "[ENTRYPOINT] ✅ All system dependencies validated").

(** Every required command that is missing, in the order of the
    checks. *)
Definition missing : list string :=
  filter (fun c => negb (command_v c)) required_commands.
End Shell.

(** A container image that lacks two of the tools. *)
Definition two_missing (cmd : string) : bool :=
  negb (String.eqb cmd "dnsmasq" || String.eqb cmd "tshark").

(** The commands a trace reports as missing: a mark takes three bytes, so
    the name starts at byte 24. *)
Definition fatal_of (x : effect) : option string :=
  match x with
  | Echo msg =>
      if String.prefix "[ENTRYPOINT] ❌ FATAL: " msg
      then Some (String.substring 24 (String.length msg - 34) msg)
      else None
  | CommandV _ => None
  end.
Definition fatals (t : list effect) : list string := omap fatal_of t.

(** The commands a trace looks up: the checks that ran. *)
Definition lookup_of (x : effect) : option string :=
  match x with CommandV cmd => Some cmd | Echo _ => None end.
Definition checked (t : list effect) : list string := omap lookup_of t.

End Entrypoint.

(** ** The web UI's socket client: [lib/websocket.ts] *)

Module WebSocketClient.
Import Eff.

Inductive effect : Type :=
| ConsoleDebug (msg : string)
| ConsoleWarn (msg : string)
| ConsoleError (msg : string)
| NewWebSocket (sock : nat) (url : string)
| SocketClose (sock : nat)
| SetTimeout (delay : Z) (token : string)
| Callback (cb : nat) (data : string).

(** The fields of the class, followed by what the browser keeps for it:
    the sockets it created whose close event has not fired yet, each with
    the token its handlers captured, the number of sockets created so
    far, and the pending [setTimeout] calls (delay and captured token).
    Registered callbacks are named by numbers; a [Set] of callbacks is a
    duplicate-free list in insertion order. *)
Record state : Type := mkState {
  ws : option nat;
  reconnectAttempts : Z;
  listeners : gmap string (list nat);
  shouldReconnect : bool;
  sockets : gmap nat string;
  created : nat;
  timers : list (Z * string)
}.

Definition maxReconnectAttempts : Z := 5.

Definition init : state :=
  {| ws := None; reconnectAttempts := 0; listeners := ∅;
     shouldReconnect := true; sockets := ∅; created := 0; timers := [] |}.

Definition set_ws (v : option nat) (s : state) : state :=
  {| ws := v; reconnectAttempts := reconnectAttempts s;
     listeners := listeners s; shouldReconnect := shouldReconnect s;
     sockets := sockets s; created := created s; timers := timers s |}.
Definition set_reconnectAttempts (v : Z) (s : state) : state :=
  {| ws := ws s; reconnectAttempts := v;
     listeners := listeners s; shouldReconnect := shouldReconnect s;
     sockets := sockets s; created := created s; timers := timers s |}.
Definition set_listeners (v : gmap string (list nat)) (s : state) : state :=
  {| ws := ws s; reconnectAttempts := reconnectAttempts s;
     listeners := v; shouldReconnect := shouldReconnect s;
     sockets := sockets s; created := created s; timers := timers s |}.
Definition set_shouldReconnect (v : bool) (s : state) : state :=
  {| ws := ws s; reconnectAttempts := reconnectAttempts s;
     listeners := listeners s; shouldReconnect := v;
     sockets := sockets s; created := created s; timers := timers s |}.
Definition set_sockets (v : gmap nat string) (s : state) : state :=
  {| ws := ws s; reconnectAttempts := reconnectAttempts s;
     listeners := listeners s; shouldReconnect := shouldReconnect s;
     sockets := v; created := created s; timers := timers s |}.
Definition set_created (v : nat) (s : state) : state :=
  {| ws := ws s; reconnectAttempts := reconnectAttempts s;
     listeners := listeners s; shouldReconnect := shouldReconnect s;
     sockets := sockets s; created := v; timers := timers s |}.
Definition set_timers (v : list (Z * string)) (s : state) : state :=
  {| ws := ws s; reconnectAttempts := reconnectAttempts s;
     listeners := listeners s; shouldReconnect := shouldReconnect s;
     sockets := sockets s; created := created s; timers := v |}.

Abbreviation M := (Eff.M state effect).

(** [apiUrl.replace(/^http/, 'ws')] *)
Definition replace_http (url : string) : string :=
  if String.prefix "http" url
  then "ws" +:+ String.substring 4 (String.length url - 4) url
  else url.

Section Client.
(** [import.meta.env.VITE_API_URL], fixed when the bundle is built. *)
Variable VITE_API_URL : option string.

Definition apiUrl : string :=
  match VITE_API_URL with
  | Some u => if String.eqb u "" then "http://localhost:8443" else u
  | None => "http://localhost:8443"
  end.

(** [new WebSocket(url)] with the four handlers attached: the browser
    now has one more socket whose events reach this client. *)
Definition newWebSocket (url token : string) : M nat :=
  s ← get;
  let sock := created s in
  emit (NewWebSocket sock url);;
  modify (set_created (S sock));;
  modify (fun s => set_sockets (<[sock := token]> (sockets s)) s);;
  mret sock.

Definition connect (token : string) : M unit :=
  modify (set_shouldReconnect true);;
  let wsUrl := replace_http apiUrl +:+ "/ws/traffic?token=" +:+ token in
  emit (ConsoleDebug ("[WS] Connecting to: " +:+ wsUrl));;
  sock ← newWebSocket wsUrl token;
  modify (set_ws (Some sock)).

Definition setTimeout (delay : Z) (token : string) : M unit :=
  emit (SetTimeout delay token);;
  modify (fun s => set_timers (timers s ++ [(delay, token)]) s).

Definition reconnect (token : string) : M unit :=
  s ← get;
  if negb (shouldReconnect s) then
    emit (ConsoleDebug "[WS] Reconnection disabled (manual disconnect)")
  else if reconnectAttempts s <? maxReconnectAttempts then
    let n := reconnectAttempts s + 1 in
    modify (set_reconnectAttempts n);;
    emit (ConsoleDebug ("[WS] Reconnecting (" +:+ pretty n +:+ "/" +:+
                        pretty maxReconnectAttempts +:+ ")"));;
    setTimeout (2000 * n) token
  else emit (ConsoleWarn "[WS] Max reconnection attempts reached").

(** [on]: a [Set] does not keep a callback twice. *)
Definition on (event : string) (callback : nat) : M unit :=
  modify (fun s =>
    let l := default [] (listeners s !! event) in
    let l' := if decide (callback ∈ l) then l else l ++ [callback] in
    set_listeners (<[event := l']> (listeners s)) s).

(** The private method [emit] of the class. *)
Definition emit_event (event data : string) : M unit :=
  s ← get;
  emit_all ((fun cb => Callback cb data) <$>
            default [] (listeners s !! event)).

Definition disconnect : M unit :=
  modify (set_shouldReconnect false);;
  s ← get;
  match ws s with
  | Some sock => emit (SocketClose sock)
  | None => mret tt
  end;;
  modify (set_ws None);;
  modify (set_listeners ∅);;
  emit (ConsoleDebug "[WS] Disconnected (reconnection disabled)").

Definition off (event : string) (callback : option nat) : M unit :=
  match callback with
  | Some cb =>
      modify (fun s =>
        match listeners s !! event with
        | Some l =>
            set_listeners
              (<[event := filter (fun c => c ≠ cb) l]> (listeners s)) s
        | None => s
        end)
  | None => modify (fun s => set_listeners (delete event (listeners s)) s)
  end.

(** The four socket handlers installed by [connect(token)]. *)
Definition onopen : M unit :=
  emit (ConsoleDebug "[WS] Connected");;
  modify (set_reconnectAttempts 0).

Definition onmessage (event data : string) : M unit :=
  emit (ConsoleDebug ("[WS] Message: " +:+ event));;
  emit_event event data.

Definition onerror : M unit := emit (ConsoleError "[WS] Error:").

Definition onclose (token : string) : M unit :=
  emit (ConsoleDebug "[WS] Disconnected");;
  reconnect token.

(** What can happen to the client: calls of its public methods, events
    of a socket it created, and a pending timeout coming due. *)
Inductive event : Type :=
| Connect (token : string)
| Disconnect
| On (ev : string) (cb : nat)
| Off (ev : string) (cb : option nat)
| Open (sock : nat)
| Message (sock : nat) (ev data : string)
| Error (sock : nat)
| Close (sock : nat)
| TimerFires (i : nat).

(** An event of a socket the browser does not know (never created, or
    closed already) cannot occur and is ignored; so is the firing of a
    timeout that is not pending.  The close event is a socket's last. *)
Definition step (ev : event) : M unit :=
  match ev with
  | Connect token => connect token
  | Disconnect => disconnect
  | On e cb => on e cb
  | Off e cb => off e cb
  | Open sock =>
      s ← get;
      match sockets s !! sock with Some _ => onopen | None => mret tt end
  | Message sock e d =>
      s ← get;
      match sockets s !! sock with
      | Some _ => onmessage e d | None => mret tt end
  | Error sock =>
      s ← get;
      match sockets s !! sock with Some _ => onerror | None => mret tt end
  | Close sock =>
      s ← get;
      match sockets s !! sock with
      | Some token =>
          modify (fun s => set_sockets (delete sock (sockets s)) s);;
          onclose token
      | None => mret tt
      end
  | TimerFires i =>
      s ← get;
      match timers s !! i with
      | Some (_, token) =>
          modify (fun s => set_timers (delete i (timers s)) s);;
          connect token
      | None => mret tt
      end
  end.

Fixpoint run (evs : list event) : M unit :=
  match evs with
  | [] => mret tt
  | ev :: rest => step ev;; run rest
  end.
End Client.

(** Reading a trace: the reconnections scheduled, the sockets opened and
    closed, the callbacks invoked. *)
Definition delay_of (x : effect) : option Z :=
  match x with SetTimeout d _ => Some d | _ => None end.
Definition delays (t : list effect) : list Z := omap delay_of t.

Definition close_of (x : effect) : option nat :=
  match x with SocketClose sock => Some sock | _ => None end.
Definition closes (t : list effect) : list nat := omap close_of t.

Definition opened_of (x : effect) : option nat :=
  match x with NewWebSocket sock _ => Some sock | _ => None end.
Definition opened (t : list effect) : list nat := omap opened_of t.

Definition callback_of (x : effect) : option nat :=
  match x with Callback cb _ => Some cb | _ => None end.
Definition delivered (t : list effect) : list nat := omap callback_of t.

(** Five failed connections in a row, each retried when its timeout
    comes due; and the same followed by the sixth connection. *)
Definition five_failures : list event :=
  [Connect "t"; Close 0; TimerFires 0; Close 1; TimerFires 0; Close 2;
   TimerFires 0; Close 3; TimerFires 0; Close 4].

Definition exhausted : state :=
  state_of (run None (five_failures ++ [TimerFires 0]) init).

(** A close while a retry is pending, then a manual disconnect. *)
Definition disconnected_with_timer : state :=
  state_of (run None [Connect "t"; Close 0; Disconnect] init).

(** The address [connect] opens a socket to. *)
Definition wsUrl (VITE_API_URL : option string) (token : string) : string :=
  replace_http (apiUrl VITE_API_URL) +:+ "/ws/traffic?token=" +:+ token.

(** Kinds of events, and conditions on the state, used to state what runs
    of the client keep true. *)
Definition is_connect (ev : event) : bool :=
  match ev with Connect _ => true | _ => false end.

Definition is_on (ev : event) : bool :=
  match ev with On _ _ => true | _ => false end.

Definition attempts_ok (s : state) : Prop :=
  0 ≤ reconnectAttempts s ≤ maxReconnectAttempts.

Definition delay_ok (d : Z) : Prop :=
  ∃ n, 1 ≤ n ≤ maxReconnectAttempts ∧ d = 2000 * n.

Definition callbacks (s : state) (ev : string) : list nat :=
  default [] (listeners s !! ev).

Definition listeners_distinct (s : state) : Prop :=
  ∀ ev, NoDup (callbacks s ev).

(** A connected client with two subscribers. *)
Definition connected : state :=
  state_of (run None [On "http_flow" 1; On "http_flow" 2; Connect "t"; Open 0]
              init).

End WebSocketClient.

(** ** The web UI's axios client: [lib/api.ts] *)

Module ApiClient.
Import Eff.

(** The part of the browser the interceptors touch. *)
Record browser : Type := mkBrowser {
  localStorage : gmap string string;
  location_href : string
}.

(** An axios error: [error.response?.status] ([None] when the request got
    no response) and [error.message]. *)
Record AxiosError : Type := mkError {
  status : option Z;
  message : string
}.

Inductive effect : Type :=
| ConsoleDebug (msg : string)
| ConsoleError (status : option Z) (msg : string).

(** What an interceptor hands back to the caller of the client. *)
Inductive promise (A : Type) : Type :=
| Resolved (a : A)
| Rejected (err : AxiosError).
Arguments Resolved {A} a.
Arguments Rejected {A} err.

Abbreviation M := (Eff.M browser effect).

Definition removeItem (key : string) : M unit :=
  modify (fun b => {| localStorage := delete key (localStorage b);
                      location_href := location_href b |}).

Definition set_location_href (url : string) : M unit :=
  modify (fun b => {| localStorage := localStorage b;
                      location_href := url |}).

(** The second argument of [apiClient.interceptors.response.use]. *)
Definition onResponseError {A} (error : AxiosError) : M (promise A) :=
  (if decide (status error = Some 401) then
     removeItem "token";;
     set_location_href "/login"
   else mret tt);;
  emit (ConsoleError (status error) (message error));;
  mret (Rejected error).

(** The first argument: a response passes through. *)
Definition onResponse {A} (response : A) : M (promise A) :=
  emit (ConsoleDebug "[API] Response:");;
  mret (Resolved response).

(** A browser with a stored token. *)
Definition logged_in : browser :=
  {| localStorage := {[ "token" := "jwt"; "theme" := "dark" ]};
     location_href := "/traffic" |}.

(** The request configuration, as far as the interceptor touches it. *)
Record RequestConfig : Type := mkConfig {
  headers : gmap string string;
  method : string;
  url : string
}.

(** The argument of [apiClient.interceptors.request.use]; a stored token
    that is the empty string is falsy and adds no header. *)
Definition onRequest (config : RequestConfig) : M RequestConfig :=
  b ← get;
  let config' :=
    match localStorage b !! "token" with
    | Some token =>
        if String.eqb token "" then config
        else {| headers := <["Authorization" := "Bearer " +:+ token]>
                             (headers config);
                method := method config; url := url config |}
    | None => config
    end in
  emit (ConsoleDebug ("[API] Request: " +:+ method config +:+ " " +:+
                      url config));;
  mret config'.

(** [localStorage.setItem] *)
Definition setItem (key value : string) : M unit :=
  modify (fun b => {| localStorage := <[key := value]> (localStorage b);
                      location_href := location_href b |}).

(** A request for the flow list. *)
Definition get_flows : RequestConfig :=
  {| headers := {[ "Content-Type" := "application/json" ]};
     method := "get"; url := "/api/v1/flows" |}.

End ApiClient.

(** ** The web UI's auth store: [stores/authStore.ts] *)

Module WebAuth.
Import Eff.

(** The store's own fields, with the browser and the socket client
    singleton its actions reach. *)
Record state : Type := mkState {
  browser : ApiClient.browser;
  socket : WebSocketClient.state;
  token : option string;
  user : option (string * string)      (* user_id and role *)
}.

Record LoginData : Type := mkLogin {
  access_token : string;
  user_id : string;
  role : string
}.

Inductive effect : Type :=
| Api (x : ApiClient.effect)
| Ws (x : WebSocketClient.effect)
| ConsoleDebug (msg : string).

Abbreviation M := (Eff.M state effect).

Definition set_browser (b : ApiClient.browser) (s : state) : state :=
  {| browser := b; socket := socket s; token := token s; user := user s |}.
Definition set_socket (c : WebSocketClient.state) (s : state) : state :=
  {| browser := browser s; socket := c; token := token s; user := user s |}.
Definition set_token_user (t : option string) (u : option (string * string))
    (s : state) : state :=
  {| browser := browser s; socket := socket s; token := t; user := u |}.

(** Running code of the axios client or of the socket client from the
    store. *)
Definition lift_api {A} (m : ApiClient.M A) : M A :=
  fun s => let '(o, b, t) := m (browser s) in (o, set_browser b s, Api <$> t).

Definition lift_ws {A} (m : WebSocketClient.M A) : M A :=
  fun s => let '(o, c, t) := m (socket s) in (o, set_socket c s, Ws <$> t).

(** [await apiClient.get/post(...)]: the request interceptor, then the
    answer of the server through the response interceptor; awaiting a
    rejected promise throws. *)
Definition call {A} (config : ApiClient.RequestConfig)
    (answer : A + ApiClient.AxiosError) : M A :=
  lift_api (ApiClient.onRequest config);;
  match answer with
  | inl a => lift_api (ApiClient.onResponse a);; mret a
  | inr err =>
      lift_api (ApiClient.onResponseError (A:=A) err);;
      throw (ApiClient.message err)
  end.

Definition json_request (method url : string) : ApiClient.RequestConfig :=
  {| ApiClient.headers := {[ "Content-Type" := "application/json" ]};
     ApiClient.method := method; ApiClient.url := url |}.

Section Store.
Variable VITE_API_URL : option string.
(** The answer of [POST /api/v1/auth/login] to a user name and password. *)
Variable post_login : string -> string -> LoginData + ApiClient.AxiosError.

Definition login (username password : string) : M unit :=
  emit (ConsoleDebug "[Auth] Logging in...");;
  data ← call (json_request "post" "/api/v1/auth/login")
              (post_login username password);
  lift_api (ApiClient.setItem "token" (access_token data));;
  modify (set_token_user (Some (access_token data))
                         (Some (user_id data, role data)));;
  lift_ws (WebSocketClient.connect VITE_API_URL (access_token data));;
  emit (ConsoleDebug "[Auth] Login successful").

Definition logout : M unit :=
  emit (ConsoleDebug "[Auth] Logging out");;
  lift_api (ApiClient.removeItem "token");;
  lift_ws WebSocketClient.disconnect;;
  modify (set_token_user None None).

End Store.

(** The store as [create] builds it: the token is read from
    localStorage. *)
Definition initial (b : ApiClient.browser) : state :=
  {| browser := b; socket := WebSocketClient.init;
     token := ApiClient.localStorage b !! "token"; user := None |}.

(** What a trace does to sockets. *)
Definition ws_of (x : effect) : option WebSocketClient.effect :=
  match x with Ws y => Some y | _ => None end.
Definition ws_trace (t : list effect) : list WebSocketClient.effect :=
  omap ws_of t.

(** A server that knows one user, and a browser that was never logged
    in. *)
Definition one_user (username password : string)
  : LoginData + ApiClient.AxiosError :=
  if String.eqb username "admin" && String.eqb password "secret"
  then inl {| access_token := "jwt-1"; user_id := "u1"; role := "admin" |}
  else inr (ApiClient.mkError (Some 401) "Request failed with status code 401").


End WebAuth.

(** ** The web UI's traffic store: [stores/trafficStore.ts] *)

Module TrafficStore.

Section Store.
Context {Flow : Type}.

Record TrafficState : Type := mkState {
  flows : list Flow;
  totalFlows : Z;
  loading : bool
}.

(** The length [addFlow] cuts the list to. *)
Definition MAX_FLOWS : nat := 100.

(** [Array.prototype.slice(0, n)] *)
Definition slice0 (n : nat) (l : list Flow) : list Flow := take n l.

(** [addFlow]: [set((state) => ({ flows: [flow, ...state.flows].slice(0, 100) }))] *)
Definition addFlow (flow : Flow) (s : TrafficState) : TrafficState :=
  {| flows := slice0 MAX_FLOWS (flow :: flows s);
     totalFlows := totalFlows s;
     loading := loading s |}.

(** [fetchFlows]: the state while the request is pending, and the state
    once it has settled; [response] is the [items] and [total] of the
    answer, or [None] when the request was rejected. *)
Definition fetchFlows_pending (s : TrafficState) : TrafficState :=
  {| flows := flows s; totalFlows := totalFlows s; loading := true |}.

Definition fetchFlows (response : option (list Flow * Z)) (s : TrafficState)
  : TrafficState :=
  let s1 := fetchFlows_pending s in
  match response with
  | Some (items, total) =>
      {| flows := items; totalFlows := total; loading := false |}
  | None =>
      {| flows := flows s1; totalFlows := totalFlows s1; loading := false |}
  end.

(** The flows pushed over the socket, oldest first, added one by one. *)
Definition addFlows (new : list Flow) (s : TrafficState) : TrafficState :=
  foldl (fun s flow => addFlow flow s) s new.
End Store.
Arguments TrafficState : clear implicits.

(** The words of the design for a bounded queue, to compare [addFlow]
    with: at capacity the item is refused and the queue is left as it
    was. *)
Inductive enqueue_result (Q : Type) : Type :=
| Enqueued (q : Q)
| QueueFullError (q : Q).
Arguments Enqueued {Q} q.
Arguments QueueFullError {Q} q.

Definition spec_enqueue {Flow} (capacity : nat) (flow : Flow)
    (q : list Flow) : enqueue_result (list Flow) :=
  if decide (capacity ≤ length q)%nat then QueueFullError q
  else Enqueued (flow :: q).

Definition queue_of {Q} (r : enqueue_result Q) : Q :=
  match r with Enqueued q => q | QueueFullError q => q end.

(** A store that holds flows 0 to 99, the newest first. *)
Definition full_store : TrafficState nat :=
  {| flows := seq 0 100; totalFlows := 100; loading := false |}.

End TrafficStore.

(** ** The mobile app's auth store: [mobile/src/stores/authStore.ts]
       and the client it calls, [mobile/src/api/client.ts] *)

Module MobileAuth.
Import Eff.

Record AuthState : Type := mkAuth {
  isAuthenticated : bool;
  token : option string;
  serverUrl : string;
  loading : bool;
  error : option string
}.

(** The private fields of [APIClient]. *)
Record APIClient : Type := mkClient {
  api_token : option string;
  baseURL : option string
}.

Record AuthResponse : Type := mkResponse {
  access_token : string;
  token_type : string
}.

(** What a rejected request throws: an [Error] with its message, or any
    other value. *)
Inductive thrown : Type :=
| ErrorObject (message : string)
| OtherValue.

Inductive effect : Type := ConsoleLog (msg : string).

(** The store and the client singleton it imports. *)
Definition world : Type := AuthState * APIClient.

Abbreviation M := (Eff.M world effect).

Definition initial : AuthState :=
  {| isAuthenticated := false; token := None; serverUrl := "";
     loading := false; error := None |}.

(** zustand's [set] with the partial objects the store passes to it. *)
Definition set_loading_error (l : bool) (e : option string) : M unit :=
  modify (fun w =>
    ({| isAuthenticated := isAuthenticated w.1; token := token w.1;
        serverUrl := serverUrl w.1; loading := l; error := e |}, w.2)).

Definition set_authenticated (t : string) : M unit :=
  modify (fun w =>
    ({| isAuthenticated := true; token := Some t;
        serverUrl := serverUrl w.1; loading := false;
        error := error w.1 |}, w.2)).

Definition set_logged_out : M unit :=
  modify (fun w =>
    ({| isAuthenticated := false; token := None;
        serverUrl := serverUrl w.1; loading := loading w.1;
        error := error w.1 |}, w.2)).

Definition set_api_token (t : option string) : M unit :=
  modify (fun w => (w.1, {| api_token := t; baseURL := baseURL w.2 |})).

(** [error instanceof Error ? error.message : 'Login failed'] *)
Definition message_of (t : thrown) : string :=
  match t with ErrorObject m => m | OtherValue => "Login failed" end.

Section Server.
(** The answer of [POST /api/v1/auth/login] to a user name and a
    password. *)
Variable post_login : string -> string -> AuthResponse + thrown.

(** [APIClient.login]; a thrown value travels as the sum's right
    side. *)
Definition api_login (username password : string)
  : M (AuthResponse + thrown) :=
  emit (ConsoleLog ("[API] Login attempt: " +:+ username));;
  match post_login username password with
  | inl data => set_api_token (Some (access_token data));; mret (inl data)
  | inr t => mret (inr t)
  end.

(** [useAuthStore.login] *)
Definition login (username password : string) : M bool :=
  emit (ConsoleLog "[AUTH] Login attempt");;
  set_loading_error true None;;
  r ← api_login username password;
  match r with
  | inl response =>
      set_authenticated (access_token response);;
      emit (ConsoleLog "[AUTH] Login successful");;
      mret true
  | inr t =>
      let message := message_of t in
      emit (ConsoleLog ("[AUTH] Login failed: " +:+ message));;
      set_loading_error false (Some message);;
      mret false
  end.
End Server.

Definition logout : M unit :=
  emit (ConsoleLog "[AUTH] Logout");;
  set_api_token None;;
  set_logged_out.

(** [setServerUrl], with [api.setBaseURL]. *)
Definition setServerUrl (url : string) : M unit :=
  emit (ConsoleLog ("[AUTH] Setting server URL: " +:+ url));;
  modify (fun w => (w.1, {| api_token := api_token w.2; baseURL := Some url |}));;
  emit (ConsoleLog ("[API] Base URL set: " +:+ url));;
  modify (fun w =>
    ({| isAuthenticated := isAuthenticated w.1; token := token w.1;
        serverUrl := url; loading := loading w.1; error := None |}, w.2)).

(** [checkConnection]; [health_ok] says whether [GET /api/v1/health] was
    answered. *)
Definition checkConnection (health_ok : bool) : M bool :=
  emit (ConsoleLog "[AUTH] Checking connection");;
  if health_ok then
    emit (ConsoleLog "[AUTH] Connection OK");; mret true
  else
    emit (ConsoleLog "[AUTH] Connection failed");;
    modify (fun w =>
      ({| isAuthenticated := isAuthenticated w.1; token := token w.1;
          serverUrl := serverUrl w.1; loading := loading w.1;
          error := Some "Cannot connect to server" |}, w.2));;
    mret false.

(** The [Authorization] header the client's request interceptor adds, if
    any: [if (this.token)] is false for null and for the empty string. *)
Definition authorization (c : APIClient) : option string :=
  match api_token c with
  | Some t => if String.eqb t "" then None else Some ("Bearer " +:+ t)
  | None => None
  end.

(** A server that knows one user. *)
Definition one_user (username password : string) : AuthResponse + thrown :=
  if String.eqb username "admin" && String.eqb password "secret"
  then inl {| access_token := "jwt-1"; token_type := "bearer" |}
  else inr (ErrorObject "Request failed with status code 401").

Definition fresh : world :=
  (initial, {| api_token := None; baseURL := None |}).

End MobileAuth.


(** * Properties *)

(** ** Laws of the effect monad *)

Module EffFacts.
Import Eff.

Section Laws.
Context {S E : Type}.
Implicit Types s : S.

Lemma run_bind {A B} (m : M S E A) (k : A → M S E B) s :
  (m ≫= k) s =
  match m s with
  | (Ret a, s1, t1) => let '(o, s2, t2) := k a s1 in (o, s2, t1 ++ t2)
  | (Throw msg, s1, t1) => (Throw msg, s1, t1)
  | (Exit c, s1, t1) => (Exit c, s1, t1)
  end.
Proof. reflexivity. Qed.

Lemma run_bind_ret {A B} (m : M S E A) (k : A → M S E B) s a s1 t1 :
  m s = (Ret a, s1, t1) →
  (m ≫= k) s = (out_of (k a s1), state_of (k a s1), t1 ++ trace_of (k a s1)).
Proof.
  intros Hm. rewrite run_bind, Hm.
  by destruct (k a s1) as [[o s2] t2].
Qed.

Lemma run_bind_throw {A B} (m : M S E A) (k : A → M S E B) s msg s1 t1 :
  m s = (Throw msg, s1, t1) → (m ≫= k) s = (Throw msg, s1, t1).
Proof. intros Hm. by rewrite run_bind, Hm. Qed.

Lemma run_bind_exit {A B} (m : M S E A) (k : A → M S E B) s c s1 t1 :
  m s = (Exit c, s1, t1) → (m ≫= k) s = (Exit c, s1, t1).
Proof. intros Hm. by rewrite run_bind, Hm. Qed.

(** A result is its three components. *)
Lemma result_eta {A} (r : outcome A * S * list E) :
  r = (out_of r, state_of r, trace_of r).
Proof. by destruct r as [[o s] t]. Qed.
End Laws.
End EffFacts.

(** ** The desktop shell *)

Module DesktopFacts.
Import Eff EffFacts Desktop.

Lemma calm_ret {A} (a : A) : calm (mret a).
Proof. intros s. by repeat split. Qed.

Lemma calm_emit x : stop_of x = None → calm (emit x).
Proof.
  intros Hx s. repeat split; [|done..].
  unfold stopped. simpl. by rewrite Hx.
Qed.

Lemma calm_throw {A} msg : calm (throw (A:=A) msg).
Proof. intros s. by repeat split. Qed.

Lemma calm_exit {A} : calm (exit (A:=A) 1).
Proof. intros s. repeat split; [|done]. by intros c [= <-]. Qed.

Lemma calm_modify f :
  (∀ s, is_Some (backendProcess s) → is_Some (backendProcess (f s))) →
  calm (modify f).
Proof. intros Hf s. repeat split; [done|]. apply Hf. Qed.

Lemma calm_bind {A B} (m : M A) (k : A → M B) :
  calm m → (∀ a, calm (k a)) → calm (m ≫= k).
Proof.
  intros Hm Hk s. specialize (Hm s). rewrite run_bind.
  destruct (m s) as [[[a|msg|c] s1] t1];
    unfold stopped, trace_of, out_of, state_of in *; simpl in *;
    destruct Hm as (Hm1 & Hm2 & Hm3).
  - specialize (Hk a s1). destruct (k a s1) as [[o s2] t2].
    unfold stopped, trace_of, out_of, state_of in *; simpl in *.
    destruct Hk as (Hk1 & Hk2 & Hk3).
    repeat split; [|done|by auto].
    by rewrite omap_app, Hm1, Hk1.
  - by repeat split.
  - repeat split; [done| |done]. intros c' [= <-]. by apply Hm2.
Qed.

Lemma calm_try_catch {A} (m : M A) (h : string → M A) :
  calm m → (∀ msg, calm (h msg)) → calm (try_catch m h).
Proof.
  intros Hm Hh s. specialize (Hm s). unfold try_catch.
  destruct (m s) as [[[a|msg|c] s1] t1]; [done| |done].
  specialize (Hh msg s1). destruct (h msg s1) as [[o s2] t2].
  unfold stopped, trace_of, out_of, state_of in *. simpl in *.
  destruct Hm as (Hm1 & _ & Hm3), Hh as (Hh1 & Hh2 & Hh3).
  repeat split; [|done|by auto].
  by rewrite omap_app, Hm1, Hh1.
Qed.

Create HintDb calm.
#[local] Hint Resolve calm_ret calm_throw calm_exit calm_try_catch : calm.

(** One step of a calmness proof: split a sequence, settle a primitive,
    or branch on the scrutinee of a conditional. *)
Ltac calm_step :=
  match goal with
  | |- calm (_ ≫= _) => apply calm_bind; [|intros ?]
  | |- calm (emit _) => apply calm_emit; reflexivity
  | |- calm (modify _) => apply calm_modify; intros []; simpl; by eauto
  | |- calm (if ?b then _ else _) => destruct b
  | |- calm (match ?x with _ => _ end) => destruct x
  | |- _ => solve [auto with calm]
  end.
Ltac calm := repeat calm_step.

Lemma calm_failFast {A} title message : calm (failFast (A:=A) title message).
Proof. unfold failFast. calm. Qed.
#[local] Hint Resolve calm_failFast : calm.

Lemma calm_checkDependencies e : calm (checkDependencies e).
Proof.
  unfold checkDependencies, checkNode, checkBackendBundle, checkUI. calm.
Qed.

Lemma calm_waitForBackend_loop polls : calm (waitForBackend_loop polls).
Proof.
  induction polls as [|ok rest IH]; simpl; [calm|].
  apply calm_bind; [calm|intros _]. destruct ok; [calm|done].
Qed.
#[local] Hint Resolve calm_waitForBackend_loop : calm.

Lemma calm_startBackend e : calm (startBackend e).
Proof. unfold startBackend, waitForBackend. calm. Qed.

Lemma calm_createWindow e : calm (createWindow e).
Proof. unfold createWindow. calm. Qed.

Lemma calm_createTray e : calm (createTray e).
Proof. unfold createTray. calm. Qed.

Lemma calm_setupAutoUpdater e : calm (setupAutoUpdater e).
Proof. unfold setupAutoUpdater. calm. Qed.

#[local] Hint Resolve calm_checkDependencies calm_startBackend
  calm_createWindow calm_createTray calm_setupAutoUpdater : calm.

Lemma calm_run_steps steps : Forall calm steps → calm (run_steps steps).
Proof.
  induction 1 as [|m rest Hm _ IH]; simpl; [calm|].
  by apply calm_bind.
Qed.

Lemma calm_startup_steps e : Forall calm (startup_steps e).
Proof.
  unfold startup_steps.
  repeat (apply Forall_cons; split; [by auto with calm|]).
  apply Forall_nil_2.
Qed.

Lemma calm_onReady e : calm (onReady e).
Proof.
  unfold onReady. apply calm_bind; [calm|intros _].
  apply calm_try_catch; [|intros msg; calm].
  apply calm_run_steps, calm_startup_steps.
Qed.

(** *** Which step fails *)

Lemma failing_step_none steps s k0 :
  failing_step steps s k0 = None →
  out_of (run_steps steps s) = Ret tt.
Proof.
  revert s k0. induction steps as [|m rest IH]; intros s k0; simpl; [done|].
  rewrite run_bind. destruct (m s) as [[[[]|msg|c] s1] t1]; [|done..].
  intros H. specialize (IH _ _ H).
  by destruct (run_steps rest s1) as [[o s2] t2].
Qed.

Lemma failing_step_some steps s k0 k :
  failing_step steps s k0 = Some k →
  ∀ a, out_of (run_steps steps s) ≠ Ret a.
Proof.
  revert s k0. induction steps as [|m rest IH]; intros s k0; simpl; [done|].
  rewrite run_bind. destruct (m s) as [[[[]|msg|c] s1] t1]; [|done..].
  intros H a. specialize (IH _ _ H a).
  by destruct (run_steps rest s1) as [[o s2] t2].
Qed.

Lemma failing_step_range steps s k0 k :
  failing_step steps s k0 = Some k → (k0 ≤ k < k0 + length steps)%nat.
Proof.
  revert s k0. induction steps as [|m rest IH]; intros s k0; simpl; [done|].
  destruct (m s) as [[[[]|msg|c] s1] t1]; [|intros [= <-]; lia..].
  intros H. specialize (IH _ _ H). lia.
Qed.

(** The handler never lets an exception escape, and ends the process
    exactly when the steps do not all return. *)
Lemma guarded_outcome (m : M unit) x (h : string → effect) s :
  (∀ c, out_of (m s) = Exit c → c = 1) →
  out_of ((emit x;; try_catch m (λ err, emit (h err);; exit 1)) s) =
  match out_of (m s) with Ret _ => Ret tt | _ => Exit 1 end.
Proof.
  intros Hc. rewrite run_bind. simpl. unfold try_catch.
  destruct (m s) as [[[[]|msg|c] s1] t1]; simpl in *; [done|done|].
  by rewrite (Hc c eq_refl).
Qed.

Lemma onReady_outcome e s :
  out_of (onReady e s) =
  match out_of (run_steps (startup_steps e) s) with
  | Ret _ => Ret tt
  | _ => Exit 1
  end.
Proof.
  pose proof (calm_run_steps _ (calm_startup_steps e) s) as (_ & Hc & _).
  unfold onReady.
  exact (guarded_outcome _ _
           (λ err, LogError ("[APP] Startup failed: " +:+ err)) s Hc).
Qed.

Lemma onReady_exit_code e :
  exit_code (onReady e init) =
  match failed_step e with Some _ => Some 1 | None => None end.
Proof.
  unfold exit_code, failed_step. rewrite onReady_outcome.
  destruct (failing_step _ _ _) as [k|] eqn:Hk.
  - pose proof (failing_step_some _ _ _ _ Hk) as Hne.
    destruct (out_of _) as [[]|msg|c]; [by destruct (Hne tt)|done..].
  - by rewrite (failing_step_none _ _ _ Hk).
Qed.

(** Once [startBackend] has run, returned or not, the process handle is
    set. *)
Lemma startBackend_spawns e s :
  is_Some (backendProcess (state_of (startBackend e s))).
Proof.
  pose proof (calm_waitForBackend_loop (healthPolls e)) as Hw.
  unfold startBackend, waitForBackend.
  rewrite run_bind. simpl. rewrite run_bind.
  destruct (isDev e); simpl; rewrite run_bind; simpl;
    match goal with
    | |- context [waitForBackend_loop _ ?s1] =>
        destruct (Hw s1) as (_ & _ & Hs);
        destruct (waitForBackend_loop _ s1) as [[[[]|msg|c] s2] t2]
    end; simpl in *; by eauto.
Qed.

Lemma checkDependencies_state e s :
  state_of (checkDependencies e s) = s.
Proof.
  unfold checkDependencies, checkNode, checkBackendBundle, checkUI.
  generalize (getBackendPath e) (getUIPath e). intros bp up.
  by destruct (majorVersion e <? 18), (isDev e), (existsSync e bp),
    (existsSync e up).
Qed.

Lemma bind_keeps {A B} (m : M A) (k : A → M B) s :
  is_Some (backendProcess (state_of (m s))) →
  (∀ a, calm (k a)) →
  is_Some (backendProcess (state_of ((m ≫= k) s))).
Proof.
  intros Hm Hk. rewrite run_bind.
  destruct (m s) as [[[a|msg|c] s1] t1]; [|done..].
  destruct (Hk a s1) as (_ & _ & Hs).
  destruct (k a s1) as [[o s2] t2]. by apply Hs.
Qed.

Lemma try_catch_keeps {A} (m : M A) (h : string → M A) s :
  is_Some (backendProcess (state_of (m s))) →
  (∀ msg, calm (h msg)) →
  is_Some (backendProcess (state_of (try_catch m h s))).
Proof.
  intros Hm Hh. unfold try_catch.
  destruct (m s) as [[[a|msg|c] s1] t1]; [done| |done].
  destruct (Hh msg s1) as (_ & _ & Hs).
  destruct (h msg s1) as [[o s2] t2]. by apply Hs.
Qed.

(** If the first step returned, the handler leaves the backend process
    handle set. *)
Lemma onReady_keeps_backend e k :
  failed_step e = Some k → (2 ≤ k)%nat →
  is_Some (backendProcess (state_of (onReady e init))).
Proof.
  unfold failed_step, startup_steps. intros Hk Hle.
  cbn [failing_step] in Hk.
  pose proof (checkDependencies_state e init) as Hst.
  destruct (checkDependencies e init) as [[[[]|msg|c] s1] t1] eqn:Hcd;
    [|injection Hk as <-; lia..].
  unfold state_of in Hst. simpl in Hst. subst s1.
  unfold onReady. rewrite (run_bind_ret _ _ _ tt init [LogInfo _] eq_refl).
  unfold state_of at 1. cbn [fst snd].
  apply try_catch_keeps; [|intros msg; calm].
  unfold startup_steps. cbn [run_steps].
  rewrite (run_bind_ret _ _ _ _ _ _ Hcd).
  unfold state_of at 1. cbn [fst snd].
  apply bind_keeps; [apply startBackend_spawns|].
  intros _. calm.
Qed.

(** *** The startup handler *)

(** C1 (as the code has it): when a startup step fails, the handler stops
    nothing -- no subsystem started by the earlier steps is stopped, and
    from the second step on the spawned backend process is still held --
    and the process exits with code 1. *)
Theorem startup_failure_stops_nothing e k :
  failed_step e = Some k →
  stopped (trace_of (onReady e init)) = [] ∧
  exit_code (onReady e init) = Some 1 ∧
  ((2 ≤ k)%nat → is_Some (backendProcess (state_of (onReady e init)))).
Proof.
  intros Hk. split; [apply calm_onReady|]. split.
  - by rewrite onReady_exit_code, Hk.
  - by apply onReady_keeps_backend.
Qed.

Lemma startup_failure_stops_nothing_witness :
  failed_step env_no_window = Some 3%nat ∧
  stopped (trace_of (onReady env_no_window init)) = [] ∧
  exit_code (onReady env_no_window init) = Some 1 ∧
  ((2 ≤ 3)%nat →
   is_Some (backendProcess (state_of (onReady env_no_window init)))).
Proof.
  split; [reflexivity|].
  apply (startup_failure_stops_nothing env_no_window 3). reflexivity.
Defined.

(** C1 as stated fails: the window step (step 3) fails after the backend
    was started; the backend is not stopped and the exit code is not 3. *)
Lemma rollback_counterexample :
  failed_step env_no_window = Some 3%nat ∧
  started_before env_no_window 3 = [Backend] ∧
  ¬ rolls_back env_no_window 3 ∧
  ¬ exits_with_step env_no_window 3.
Proof.
  split; [reflexivity|]. split; [reflexivity|].
  split; intros H; vm_compute in H; discriminate H.
Qed.

(** C2 (as the code has it): whichever step of the startup fails, the
    process exits with code 1, and it does not exit when every step
    returns; quitting from the tray ends the process with code 0. *)
Theorem startup_exit_code_is_one e s :
  exit_code (onReady e init) =
    match failed_step e with Some _ => Some 1 | None => None end ∧
  exit_code (trayQuit s) = Some 0 ∧
  exit_code (appQuit s) = Some 0.
Proof.
  split; [apply onReady_exit_code|].
  unfold trayQuit, appQuit, onBeforeQuit, onQuit, stopBackend, exit_code.
  by destruct s as [w t [p|] q].
Qed.

(** C2 as stated fails: the backend never answers, step 2 fails, and the
    exit code is 1, not 2. *)
Lemma exit_code_counterexample :
  failed_step env_backend_down = Some 2%nat ∧
  exit_code (onReady env_backend_down init) = Some 1 ∧
  ¬ exits_with_step env_backend_down 2.
Proof.
  split; [reflexivity|]. split; [reflexivity|].
  intros H; vm_compute in H; discriminate H.
Qed.

(** *** Dependency validation *)

Lemma checkDependencies_first e :
  unmet e ≠ [] → failed_step e = Some 1%nat.
Proof.
  intros Hne. unfold failed_step, startup_steps. cbn [failing_step].
  revert Hne.
  unfold checkDependencies, checkNode, checkBackendBundle, checkUI, unmet.
  generalize (getBackendPath e) (getUIPath e). intros bp up.
  by destruct (majorVersion e <? 18), (isDev e), (existsSync e bp),
    (existsSync e up).
Qed.

(** C3 (as the code has it): validation is fail-fast.  The checks run in
    their order up to and including the first one that fails and no
    further: the paths probed are exactly those of the checks up to that
    one, and those of all checks when none fails.  Of the unmet
    preconditions only the first is reported, in the log; validation then
    throws, the state untouched, and the startup handler ends the process
    with code 1.  When no check fails validation returns.  The container
    entry point does the same with its required commands: it looks up the
    commands up to and including the first missing one, names that one,
    and exits with code 1. *)
Theorem validation_stops_at_first_failure e s command_v :
  let r := checkDependencies e s in
  let sh := Entrypoint.validate_dependencies command_v tt in
  unmet e = check_title <$> filter check_fails (dependency_checks e) ∧
  all_probes e = concat (check_probes <$> dependency_checks e) ∧
  probed (trace_of r) = probes_through_first_failure e ∧
  reported (trace_of r) = take 1 (unmet e) ∧
  state_of r = s ∧
  (if decide (unmet e = [])
   then out_of r = Ret tt ∧ probed (trace_of r) = all_probes e
   else out_of r = Throw no_showErrorBoxSync ∧
        exit_code (onReady e init) = Some 1) ∧
  Entrypoint.checked (trace_of sh) =
    FailFast.through_first_failure (λ c, negb (command_v c))
      Entrypoint.required_commands ∧
  Entrypoint.fatals (trace_of sh) = take 1 (Entrypoint.missing command_v) ∧
  (if decide (Entrypoint.missing command_v = [])
   then out_of sh = Ret tt ∧
        Entrypoint.checked (trace_of sh) = Entrypoint.required_commands
   else out_of sh = Exit 1).
Proof.
  cbv zeta.
  assert (Hexit : unmet e ≠ [] → exit_code (onReady e init) = Some 1).
  { intros Hne. by rewrite onReady_exit_code, (checkDependencies_first e Hne). }
  split; [|split; [|split; [|split; [|split; [|split]]]]].
  - unfold unmet, dependency_checks.
    generalize (getBackendPath e) (getUIPath e). intros bp up.
    by destruct (majorVersion e <? 18), (isDev e), (existsSync e bp),
      (existsSync e up).
  - unfold all_probes, dependency_checks. by destruct (isDev e).
  - unfold checkDependencies, checkNode, checkBackendBundle, checkUI,
      probes_through_first_failure, dependency_checks.
    generalize (getBackendPath e) (getUIPath e). intros bp up.
    by destruct (majorVersion e <? 18), (isDev e), (existsSync e bp),
      (existsSync e up).
  - unfold checkDependencies, checkNode, checkBackendBundle, checkUI, unmet.
    generalize (getBackendPath e) (getUIPath e) (nodeVersion e).
    intros bp up nv.
    by destruct (majorVersion e <? 18), (isDev e), (existsSync e bp),
      (existsSync e up).
  - apply checkDependencies_state.
  - destruct (decide (unmet e = [])) as [Hnone|Hsome].
    + revert Hnone.
      unfold checkDependencies, checkNode, checkBackendBundle, checkUI, unmet,
        all_probes.
      generalize (getBackendPath e) (getUIPath e). intros bp up.
      by destruct (majorVersion e <? 18), (isDev e), (existsSync e bp),
        (existsSync e up).
    + split; [|by apply Hexit]. revert Hsome.
      unfold checkDependencies, checkNode, checkBackendBundle, checkUI, unmet.
      generalize (getBackendPath e) (getUIPath e). intros bp up.
      by destruct (majorVersion e <? 18), (isDev e), (existsSync e bp),
        (existsSync e up).
  - unfold Entrypoint.validate_dependencies, Entrypoint.check_command,
      Entrypoint.missing, Entrypoint.required_commands.
    cbn [filter list_filter FailFast.through_first_failure].
    destruct (command_v "hostapd"), (command_v "dnsmasq"),
      (command_v "iptables"), (command_v "tcpdump"), (command_v "tshark");
      by vm_compute.
Qed.

(** C3 as stated fails: with an old Node.js and both bundles missing,
    three preconditions are unmet but one is reported and no path is
    probed; with two tools missing the entry point names one. *)
Lemma validation_counterexample :
  unmet env_nothing_met =
    ["Node.js Version Too Old"; "Backend Not Found"; "UI Not Found"] ∧
  reported (trace_of (checkDependencies env_nothing_met init)) =
    ["Node.js Version Too Old"] ∧
  probed (trace_of (checkDependencies env_nothing_met init)) = [] ∧
  all_probes env_nothing_met =
    ["/res/backend/ax-traffic-analyzer"; "/res/ui/index.html"] ∧
  Entrypoint.missing Entrypoint.two_missing = ["dnsmasq"; "tshark"] ∧
  Entrypoint.fatals
    (trace_of (Entrypoint.validate_dependencies Entrypoint.two_missing tt))
    = ["dnsmasq"].
Proof. by vm_compute. Qed.

End DesktopFacts.

(** ** The socket client *)

Module WebSocketFacts.
Import Eff EffFacts WebSocketClient.

Lemma onclose_run token s :
  onclose token s =
  if negb (shouldReconnect s) then
    (Ret tt, s,
     [ConsoleDebug "[WS] Disconnected";
      ConsoleDebug "[WS] Reconnection disabled (manual disconnect)"])
  else if reconnectAttempts s <? maxReconnectAttempts then
    let n := reconnectAttempts s + 1 in
    (Ret tt,
     set_timers (timers s ++ [(2000 * n, token)])
       (set_reconnectAttempts n s),
     [ConsoleDebug "[WS] Disconnected";
      ConsoleDebug ("[WS] Reconnecting (" +:+ pretty n +:+ "/" +:+
                    pretty maxReconnectAttempts +:+ ")");
      SetTimeout (2000 * n) token])
  else
    (Ret tt, s,
     [ConsoleDebug "[WS] Disconnected";
      ConsoleWarn "[WS] Max reconnection attempts reached"]).
Proof.
  unfold onclose, reconnect. rewrite run_bind. simpl. rewrite run_bind.
  simpl. destruct (shouldReconnect s); simpl; [|done].
  by destruct (reconnectAttempts s <? maxReconnectAttempts).
Qed.


(** C6 (as the code has it): a close event while reconnection is enabled
    and the count is below the threshold adds one to the count and
    schedules one reconnect; with the count at or above the threshold,
    or reconnection disabled, it schedules nothing and changes nothing,
    the count included; an open event resets the count to 0. *)
Theorem reconnect_below_threshold_only token s :
  (shouldReconnect s = true →
   reconnectAttempts s < maxReconnectAttempts →
   reconnectAttempts (state_of (onclose token s)) = reconnectAttempts s + 1 ∧
   delays (trace_of (onclose token s)) =
     [2000 * (reconnectAttempts s + 1)]) ∧
  (shouldReconnect s = false ∨
   maxReconnectAttempts ≤ reconnectAttempts s →
   state_of (onclose token s) = s ∧
   delays (trace_of (onclose token s)) = []) ∧
  reconnectAttempts (state_of (onopen s)) = 0.
Proof.
  rewrite onclose_run. split; [|split; [|done]].
  - intros Hon Hlt. by rewrite Hon, (proj2 (Z.ltb_lt _ _) Hlt).
  - intros [->|Hge]; [done|].
    rewrite (proj2 (Z.ltb_ge _ _) Hge). by destruct (shouldReconnect s).
Qed.

Lemma reconnect_below_threshold_only_witness :
  reconnectAttempts (state_of (onclose "t" init)) = 1 ∧
  delays (trace_of (onclose "t" init)) = [2000] ∧
  state_of (onclose "t" exhausted) = exhausted ∧
  delays (trace_of (onclose "t" exhausted)) = [] ∧
  reconnectAttempts (state_of (onopen exhausted)) = 0.
Proof.
  destruct (reconnect_below_threshold_only "t" init) as (Hlow & _ & _).
  destruct (reconnect_below_threshold_only "t" exhausted)
    as (_ & Hhigh & Hopen).
  destruct Hlow as [H1 H2]; [reflexivity|reflexivity|].
  destruct Hhigh as [H3 H4]; [right; by vm_compute|].
  exact (conj H1 (conj H2 (conj H3 (conj H4 Hopen)))).
Defined.

(** C6 as stated fails: after five failed connections the count is 5;
    the sixth connection fails too, and the count is still 5, not 6. *)
Lemma failure_count_counterexample :
  shouldReconnect exhausted = true ∧
  reconnectAttempts exhausted = 5 ∧
  sockets exhausted !! 5%nat = Some "t" ∧
  reconnectAttempts (state_of (step None (Close 5) exhausted)) = 5 ∧
  reconnectAttempts (state_of (step None (Close 5) exhausted))
    ≠ reconnectAttempts exhausted + 1.
Proof. repeat split; by vm_compute. Qed.

(** C9: a connection closes, and before the retry comes due the client
    is disconnected.  The pending timeout still fires and calls
    [connect]: a new socket is opened, reconnection is enabled again, and
    when that socket closes another retry is scheduled -- with no call of
    [connect] from outside after the disconnect. *)
Theorem pending_retry_survives_disconnect :
  shouldReconnect disconnected_with_timer = false ∧
  timers disconnected_with_timer = [(2000, "t")] ∧
  let r := run None [TimerFires 0; Close 1] disconnected_with_timer in
  opened (trace_of r) = [1%nat] ∧
  delays (trace_of r) = [4000] ∧
  shouldReconnect (state_of r) = true.
Proof. repeat split; by vm_compute. Qed.

End WebSocketFacts.

(** ** Teardown *)

Module TeardownFacts.
Import Eff EffFacts.

Lemma stopBackend_run (s : Desktop.state) :
  Desktop.stopBackend s =
  match Desktop.backendProcess s with
  | Some _ =>
      (Ret tt, Desktop.set_backendProcess None s,
       [Desktop.LogInfo "[BACKEND] Stopping backend..."; Desktop.Kill "SIGTERM"])
  | None => (Ret tt, s, [])
  end.
Proof.
  unfold Desktop.stopBackend. rewrite run_bind. simpl.
  by destruct (Desktop.backendProcess s).
Qed.

Lemma disconnect_run (c : WebSocketClient.state) :
  WebSocketClient.disconnect c =
  (Ret tt,
   WebSocketClient.set_listeners ∅
     (WebSocketClient.set_ws None
        (WebSocketClient.set_shouldReconnect false c)),
   match WebSocketClient.ws c with
   | Some sock => [WebSocketClient.SocketClose sock]
   | None => []
   end ++
   [WebSocketClient.ConsoleDebug "[WS] Disconnected (reconnection disabled)"]).
Proof.
  unfold WebSocketClient.disconnect. rewrite run_bind. simpl.
  rewrite run_bind. simpl. by destruct (WebSocketClient.ws c).
Qed.

(** C7: stopping twice is stopping once.  A second [stopBackend] right
    after the first sends no signal, does nothing at all, and leaves the
    state as the first call left it; a second [disconnect] closes no
    socket and leaves the client as the first call left it.  Over both
    calls the backend is killed at most once and only the socket that
    was current is closed. *)
Theorem stop_twice_is_stop_once
    (s : Desktop.state) (c : WebSocketClient.state) :
  let r1 := Desktop.stopBackend s in
  let r2 := Desktop.stopBackend (state_of r1) in
  let d1 := WebSocketClient.disconnect c in
  let d2 := WebSocketClient.disconnect (state_of d1) in
  state_of r2 = state_of r1 ∧
  trace_of r2 = [] ∧
  Desktop.stopped (trace_of r1 ++ trace_of r2) =
    match Desktop.backendProcess s with
    | Some _ => [Desktop.Backend] | None => []
    end ∧
  state_of d2 = state_of d1 ∧
  WebSocketClient.closes (trace_of d2) = [] ∧
  WebSocketClient.closes (trace_of d1 ++ trace_of d2) =
    match WebSocketClient.ws c with Some sock => [sock] | None => [] end.
Proof.
  simpl. rewrite !stopBackend_run, !disconnect_run.
  destruct s as [w t [p|] q], c as [[sock|] n l b ss cr ts]; by simpl.
Qed.

End TeardownFacts.

(** ** The axios client *)

Module ApiFacts.
Import Eff EffFacts ApiClient.

Lemma onResponseError_run {A} (error : AxiosError) (b : browser) :
  onResponseError (A:=A) error b =
  (Ret (Rejected error),
   (if decide (status error = Some 401)
    then {| localStorage := delete "token" (localStorage b);
            location_href := "/login" |}
    else b),
   [ConsoleError (status error) (message error)]).
Proof.
  unfold onResponseError. rewrite run_bind.
  by destruct (decide (status error = Some 401)).
Qed.

(** C8: the error passes through the response interceptor as a rejected
    promise whatever its status.  On status 401 the stored token is
    removed from localStorage and the browser is sent to /login; on any
    other status, or no response at all, the browser state is left as it
    was, the stored token with it. *)
Theorem unauthorized_clears_token {A} (error : AxiosError) (b : browser) :
  let r := onResponseError (A:=A) error b in
  out_of r = Ret (Rejected error) ∧
  (status error = Some 401 →
   localStorage (state_of r) !! "token" = None ∧
   location_href (state_of r) = "/login" ∧
   (∀ key, key ≠ "token" →
           localStorage (state_of r) !! key = localStorage b !! key)) ∧
  (status error ≠ Some 401 →
   state_of r = b ∧
   localStorage (state_of r) !! "token" = localStorage b !! "token").
Proof.
  simpl. rewrite onResponseError_run. split; [done|]. split.
  - intros H401. rewrite decide_True by done. simpl.
    split; [apply lookup_delete_eq|]. split; [done|].
    intros key Hkey. by apply lookup_delete_ne.
  - intros Hne. by rewrite decide_False.
Qed.

Lemma unauthorized_clears_token_witness :
  localStorage
    (state_of (onResponseError (A:=unit) (mkError (Some 401) "expired")
                 logged_in)) !! "token" = None ∧
  state_of (onResponseError (A:=unit) (mkError (Some 500) "boom") logged_in)
    = logged_in.
Proof.
  split.
  - apply (unauthorized_clears_token (A:=unit) (mkError (Some 401) "expired")
             logged_in). reflexivity.
  - apply (unauthorized_clears_token (A:=unit) (mkError (Some 500) "boom")
             logged_in). discriminate.
Defined.

End ApiFacts.

(** ** The traffic store *)

Module TrafficFacts.
Import TrafficStore.

Section Flows.
Context {Flow : Type}.
Implicit Types (flow : Flow) (s : TrafficState Flow).

Lemma addFlow_length flow s :
  length (flows (addFlow flow s)) =
  (S (length (flows s)) `min` MAX_FLOWS)%nat.
Proof.
  unfold addFlow, slice0, MAX_FLOWS. cbn [flows].
  rewrite length_take. cbn [length]. lia.
Qed.

(** C4 (as the code has it): adding a flow to a store that holds the
    maximum of 100 is not refused.  The new flow becomes the first, the
    99 newest of the old flows follow it, the oldest one is dropped,
    and the length stays 100. *)
Theorem addFlow_at_capacity_evicts_oldest flow s :
  length (flows s) = MAX_FLOWS →
  flows (addFlow flow s) = flow :: take 99 (flows s) ∧
  length (flows (addFlow flow s)) = MAX_FLOWS ∧
  flows s !! 99%nat = last (flows s) ∧
  ∀ i, flows (addFlow flow s) !! S i =
       if decide (i < 99)%nat then flows s !! i else None.
Proof.
  intros Hlen. unfold MAX_FLOWS in *.
  assert (Hadd : flows (addFlow flow s) = flow :: take 99 (flows s))
    by done.
  rewrite Hadd. split; [done|]. split.
  { simpl. rewrite length_take. lia. }
  split.
  { rewrite last_lookup, Hlen. done. }
  intros i. simpl. case_decide.
  - by rewrite lookup_take_lt.
  - apply lookup_take_ge. lia.
Qed.
End Flows.

Lemma addFlow_at_capacity_evicts_oldest_witness :
  flows (addFlow 100%nat full_store) = 100%nat :: take 99 (seq 0 100).
Proof.
  apply (addFlow_at_capacity_evicts_oldest 100%nat full_store).
  reflexivity.
Defined.

(** C4 as stated fails: a full store takes the flow and loses its oldest
    one, where a queue that rejects at capacity would have kept its
    contents. *)
Lemma bounded_queue_counterexample :
  length (flows full_store) = MAX_FLOWS ∧
  spec_enqueue MAX_FLOWS 100%nat (flows full_store)
    = QueueFullError (flows full_store) ∧
  flows (addFlow 100%nat full_store) ≠ flows full_store ∧
  head (flows (addFlow 100%nat full_store)) = Some 100%nat ∧
  last (flows full_store) = Some 99%nat ∧
  99%nat ∉ flows (addFlow 100%nat full_store).
Proof.
  split; [reflexivity|]. split; [reflexivity|].
  split; [by vm_compute|]. split; [reflexivity|]. split; [reflexivity|].
  intros Hin. apply list_elem_of_In in Hin. vm_compute in Hin.
  repeat (destruct Hin as [Hin|Hin]; [discriminate Hin|]). exact Hin.
Qed.

End TrafficFacts.

(** ** The mobile auth store *)

Module MobileFacts.
Import Eff EffFacts MobileAuth.

(** C10: when the login request throws, [login] returns false, leaves
    [isAuthenticated], [token] and [serverUrl] as they were (so false and
    null stay false and null), and sets only [loading] (to false) and
    [error] (to the message); the client's own token is untouched.  When
    the request succeeds, [login] returns true, [isAuthenticated] is true
    and [token] is the access token of the response. *)
Theorem login_failure_keeps_auth_state
    (post_login : string → string → AuthResponse + thrown)
    (username password : string) (w : world) :
  let r := login post_login username password w in
  match post_login username password with
  | inr t =>
      out_of r = Ret false ∧
      isAuthenticated (state_of r).1 = isAuthenticated w.1 ∧
      token (state_of r).1 = token w.1 ∧
      serverUrl (state_of r).1 = serverUrl w.1 ∧
      loading (state_of r).1 = false ∧
      error (state_of r).1 = Some (message_of t) ∧
      (state_of r).2 = w.2
  | inl response =>
      out_of r = Ret true ∧
      isAuthenticated (state_of r).1 = true ∧
      token (state_of r).1 = Some (access_token response) ∧
      serverUrl (state_of r).1 = serverUrl w.1 ∧
      loading (state_of r).1 = false ∧
      error (state_of r).1 = None ∧
      api_token (state_of r).2 = Some (access_token response)
  end.
Proof.
  simpl. unfold login, api_login.
  rewrite run_bind. simpl. rewrite run_bind. simpl. rewrite run_bind. simpl.
  destruct w as [a c].
  by destruct (post_login username password) as [response|[m|]].
Qed.

End MobileFacts.

(** ** More laws of the effect monad *)

Module EffLaws.
Import Eff EffFacts.

Section Laws.
Context {S E : Type}.
Implicit Types s : S.

Lemma run_get_bind {B} (k : S → M S E B) s : (get ≫= k) s = k s s.
Proof. rewrite run_bind. simpl. by destruct (k s s) as [[o s2] t2]. Qed.

Lemma run_modify_bind {B} (f : S → S) (k : unit → M S E B) s :
  (modify f ≫= k) s = k tt (f s).
Proof. rewrite run_bind. simpl. by destruct (k tt (f s)) as [[o s2] t2]. Qed.

Lemma run_emit_bind {B} (x : E) (k : unit → M S E B) s :
  (emit x ≫= k) s =
  (out_of (k tt s), state_of (k tt s), x :: trace_of (k tt s)).
Proof. rewrite run_bind. simpl. by destruct (k tt s) as [[o s2] t2]. Qed.

Lemma run_ret_bind {A B} (a : A) (k : A → M S E B) s :
  (mret a ≫= k) s = k a s.
Proof. rewrite run_bind. simpl. by destruct (k a s) as [[o s2] t2]. Qed.
End Laws.
End EffLaws.

(** ** The socket client, event by event *)

Module WebSocketRuns.
Import Eff EffFacts EffLaws WebSocketClient.

Section Runs.
Variable VITE_API_URL : option string.

Lemma connect_run token s :
  connect VITE_API_URL token s =
  (Ret tt,
   set_ws (Some (created s))
     (set_sockets (<[created s := token]> (sockets s))
        (set_created (S (created s)) (set_shouldReconnect true s))),
   [ConsoleDebug ("[WS] Connecting to: " +:+ wsUrl VITE_API_URL token);
    NewWebSocket (created s) (wsUrl VITE_API_URL token)]).
Proof. reflexivity. Qed.

Lemma on_run ev cb s :
  on ev cb s =
  (Ret tt,
   set_listeners
     (<[ev := if decide (cb ∈ default [] (listeners s !! ev))
              then default [] (listeners s !! ev)
              else default [] (listeners s !! ev) ++ [cb]]> (listeners s)) s,
   []).
Proof. reflexivity. Qed.

Lemma off_run ev cb s :
  off ev cb s =
  (Ret tt,
   match cb with
   | Some c =>
       match listeners s !! ev with
       | Some l =>
           set_listeners (<[ev := filter (λ x, x ≠ c) l]> (listeners s)) s
       | None => s
       end
   | None => set_listeners (delete ev (listeners s)) s
   end, []).
Proof. by destruct cb. Qed.

Lemma onopen_run s :
  onopen s = (Ret tt, set_reconnectAttempts 0 s, [ConsoleDebug "[WS] Connected"]).
Proof. reflexivity. Qed.

Lemma onmessage_run ev data s :
  onmessage ev data s =
  (Ret tt, s,
   ConsoleDebug ("[WS] Message: " +:+ ev) ::
   ((λ cb, Callback cb data) <$> default [] (listeners s !! ev))).
Proof. reflexivity. Qed.

Lemma onerror_run s : onerror s = (Ret tt, s, [ConsoleError "[WS] Error:"]).
Proof. reflexivity. Qed.

(** One event, in terms of the method or handler it runs. *)
Lemma step_run ev s :
  step VITE_API_URL ev s =
  match ev with
  | Connect token => connect VITE_API_URL token s
  | Disconnect => disconnect s
  | On e cb => on e cb s
  | Off e cb => off e cb s
  | Open sock =>
      match sockets s !! sock with
      | Some _ => onopen s | None => (Ret tt, s, []) end
  | Message sock e d =>
      match sockets s !! sock with
      | Some _ => onmessage e d s | None => (Ret tt, s, []) end
  | Error sock =>
      match sockets s !! sock with
      | Some _ => onerror s | None => (Ret tt, s, []) end
  | Close sock =>
      match sockets s !! sock with
      | Some token => onclose token (set_sockets (delete sock (sockets s)) s)
      | None => (Ret tt, s, [])
      end
  | TimerFires i =>
      match timers s !! i with
      | Some (_, token) =>
          connect VITE_API_URL token (set_timers (delete i (timers s)) s)
      | None => (Ret tt, s, [])
      end
  end.
Proof.
  destruct ev; unfold step; try done; rewrite run_get_bind.
  - by destruct (sockets s !! sock).
  - by destruct (sockets s !! sock).
  - by destruct (sockets s !! sock).
  - destruct (sockets s !! sock); [|done]. by rewrite run_modify_bind.
  - destruct (timers s !! i) as [[d token]|]; [|done].
    by rewrite run_modify_bind.
Qed.

Lemma step_returns ev s : out_of (step VITE_API_URL ev s) = Ret tt.
Proof.
  rewrite step_run. destruct ev; try done.
  - by rewrite TeardownFacts.disconnect_run.
  - by rewrite off_run.
  - by destruct (sockets s !! sock).
  - by destruct (sockets s !! sock).
  - by destruct (sockets s !! sock).
  - destruct (sockets s !! sock); [|done].
    rewrite WebSocketFacts.onclose_run. by repeat case_match.
  - by destruct (timers s !! i) as [[d token]|].
Qed.

Lemma run_cons ev evs s :
  run VITE_API_URL (ev :: evs) s =
  let r := step VITE_API_URL ev s in
  let r' := run VITE_API_URL evs (state_of r) in
  (out_of r', state_of r', trace_of r ++ trace_of r').
Proof.
  pose proof (step_returns ev s) as Hret.
  cbn [run]. rewrite run_bind.
  destruct (step VITE_API_URL ev s) as [[[[]|msg|c] s1] t1]; try done.
  cbv zeta. unfold out_of, state_of, trace_of. cbn [fst snd].
  by destruct (run VITE_API_URL evs s1) as [[o s2] t2].
Qed.

Lemma state_run_cons ev evs s :
  state_of (run VITE_API_URL (ev :: evs) s) =
  state_of (run VITE_API_URL evs (state_of (step VITE_API_URL ev s))).
Proof. by rewrite run_cons. Qed.

Lemma trace_run_cons ev evs s :
  trace_of (run VITE_API_URL (ev :: evs) s) =
  trace_of (step VITE_API_URL ev s) ++
  trace_of (run VITE_API_URL evs (state_of (step VITE_API_URL ev s))).
Proof. by rewrite run_cons. Qed.

Lemma run_nil s : run VITE_API_URL [] s = (Ret tt, s, []).
Proof. reflexivity. Qed.

(** *** What every run keeps true *)

Lemma step_attempts ev s :
  attempts_ok s →
  attempts_ok (state_of (step VITE_API_URL ev s)) ∧
  Forall delay_ok (delays (trace_of (step VITE_API_URL ev s))).
Proof.
  unfold attempts_ok, maxReconnectAttempts. intros Hs.
  rewrite step_run. destruct ev.
  - by rewrite connect_run.
  - by rewrite TeardownFacts.disconnect_run; destruct (ws s).
  - by rewrite on_run.
  - rewrite off_run. by repeat case_match.
  - destruct (sockets s !! sock); [|done]. rewrite onopen_run. simpl.
    split; [lia|constructor].
  - destruct (sockets s !! sock); [|done]. rewrite onmessage_run.
    split; [done|]. unfold delays, trace_of. cbn [snd omap delay_of].
    induction (default [] (listeners s !! ev)) as [|cb l IH]; [constructor|].
    done.
  - by destruct (sockets s !! sock).
  - destruct (sockets s !! sock) as [token|]; [|done].
    rewrite WebSocketFacts.onclose_run. cbn [shouldReconnect reconnectAttempts set_sockets].
    destruct (shouldReconnect s); [|done]. cbn [negb].
    unfold maxReconnectAttempts.
    destruct (Z.ltb_spec (reconnectAttempts s) 5) as [Hlt|Hge]; [|done].
    split; [simpl; lia|].
    unfold delays, trace_of. cbn [snd omap delay_of].
    repeat constructor. exists (reconnectAttempts s + 1).
    unfold maxReconnectAttempts. lia.
  - destruct (timers s !! i) as [[d token]|]; [|done]. by rewrite connect_run.
Qed.

Lemma run_attempts evs s :
  attempts_ok s →
  attempts_ok (state_of (run VITE_API_URL evs s)) ∧
  Forall delay_ok (delays (trace_of (run VITE_API_URL evs s))).
Proof.
  revert s. induction evs as [|ev evs IH]; intros s Hs.
  - split; [done|constructor].
  - rewrite state_run_cons, trace_run_cons.
    destruct (step_attempts ev s Hs) as [Hs1 Hd1].
    destruct (IH _ Hs1) as [Hs2 Hd2].
    split; [done|]. unfold delays. rewrite omap_app.
    by apply Forall_app.
Qed.


Lemma step_quiet ev s :
  is_connect ev = false →
  shouldReconnect s = false → timers s = [] →
  (shouldReconnect (state_of (step VITE_API_URL ev s)) = false ∧
   timers (state_of (step VITE_API_URL ev s)) = []) ∧
  opened (trace_of (step VITE_API_URL ev s)) = [] ∧
  delays (trace_of (step VITE_API_URL ev s)) = [].
Proof.
  intros Hev Hoff Htm. rewrite step_run. destruct ev; try done.
  - by rewrite TeardownFacts.disconnect_run; destruct (ws s).
  - rewrite off_run. by repeat case_match.
  - by destruct (sockets s !! sock).
  - destruct (sockets s !! sock); [|done]. rewrite onmessage_run.
    split; [done|]. unfold opened, delays, trace_of. cbn [snd omap].
    by induction (default [] (listeners s !! ev)).
  - by destruct (sockets s !! sock).
  - destruct (sockets s !! sock) as [token|]; [|done].
    rewrite WebSocketFacts.onclose_run.
    cbn [shouldReconnect set_sockets]. by rewrite Hoff.
  - by rewrite Htm.
Qed.

Lemma run_quiet evs s :
  Forall (λ ev, is_connect ev = false) evs →
  shouldReconnect s = false → timers s = [] →
  shouldReconnect (state_of (run VITE_API_URL evs s)) = false ∧
  opened (trace_of (run VITE_API_URL evs s)) = [] ∧
  delays (trace_of (run VITE_API_URL evs s)) = [].
Proof.
  intros Hevs. revert s.
  induction Hevs as [|ev evs Hev _ IH]; intros s Hoff Htm; [done|].
  rewrite state_run_cons, trace_run_cons.
  destruct (step_quiet ev s Hev Hoff Htm) as ([Hoff1 Htm1] & Ho1 & Hd1).
  destruct (IH _ Hoff1 Htm1) as (Hoff2 & Ho2 & Hd2).
  unfold opened, delays in *. by rewrite !omap_app, Ho1, Hd1, Ho2, Hd2.
Qed.

Lemma delivered_onmessage ev data s :
  delivered (trace_of (onmessage ev data s)) = callbacks s ev.
Proof.
  rewrite onmessage_run. unfold delivered, trace_of, callbacks. cbn [snd].
  generalize (default [] (listeners s !! ev)). intros l.
  change (omap callback_of ((λ cb, Callback cb data) <$> l) = l).
  induction l as [|cb l IH]; [done|]. cbn. by f_equal.
Qed.

Lemma step_silent ev s :
  is_on ev = false →
  listeners s = ∅ →
  listeners (state_of (step VITE_API_URL ev s)) = ∅ ∧
  delivered (trace_of (step VITE_API_URL ev s)) = [].
Proof.
  intros Hev Hl. rewrite step_run. destruct ev; try done.
  - by rewrite TeardownFacts.disconnect_run; destruct (ws s).
  - rewrite off_run, Hl. destruct cb; [by rewrite lookup_empty|].
    split; [|done]. apply delete_empty.
  - by destruct (sockets s !! sock).
  - destruct (sockets s !! sock); [|done].
    split; [done|]. rewrite delivered_onmessage.
    unfold callbacks. by rewrite Hl, lookup_empty.
  - by destruct (sockets s !! sock).
  - destruct (sockets s !! sock) as [token|]; [|done].
    rewrite WebSocketFacts.onclose_run. by repeat case_match.
  - by destruct (timers s !! i) as [[d token]|].
Qed.

Lemma run_silent evs s :
  Forall (λ ev, is_on ev = false) evs →
  listeners s = ∅ →
  delivered (trace_of (run VITE_API_URL evs s)) = [].
Proof.
  intros Hevs. revert s.
  induction Hevs as [|ev evs Hev _ IH]; intros s Hl; [done|].
  rewrite trace_run_cons.
  destruct (step_silent ev s Hev Hl) as [Hl1 Hd1].
  unfold delivered in *. by rewrite omap_app, Hd1, (IH _ Hl1).
Qed.

Lemma callbacks_insert ev ev' l s :
  callbacks (set_listeners (<[ev := l]> (listeners s)) s) ev' =
  if decide (ev = ev') then l else callbacks s ev'.
Proof.
  unfold callbacks. cbn [listeners set_listeners].
  rewrite lookup_insert. by case_decide.
Qed.

Lemma step_distinct ev s :
  listeners_distinct s → listeners_distinct (state_of (step VITE_API_URL ev s)).
Proof.
  intros Hs. rewrite step_run. destruct ev; try done.
  - rewrite TeardownFacts.disconnect_run. intros e. unfold callbacks.
    cbn. rewrite lookup_empty. constructor.
  - rewrite on_run. intros e. unfold state_of. cbn [fst snd].
    rewrite callbacks_insert. case_decide as He; [|apply Hs].
    specialize (Hs ev). unfold callbacks in Hs. case_decide as Hin; [done|].
    apply NoDup_app. split; [done|]. split; [|apply NoDup_singleton].
    intros x Hx Hx'. apply list_elem_of_singleton in Hx'. by subst.
  - rewrite off_run. unfold state_of. cbn [fst snd].
    destruct cb as [c|].
    + destruct (listeners s !! ev) as [l|] eqn:Hl; [|done].
      intros e. rewrite callbacks_insert. case_decide; [|apply Hs].
      apply NoDup_filter. specialize (Hs ev). unfold callbacks in Hs.
      by rewrite Hl in Hs.
    + intros e. unfold callbacks. cbn [listeners set_listeners].
      destruct (decide (ev = e)) as [->|Hne].
      * rewrite lookup_delete_eq. constructor.
      * rewrite lookup_delete_ne by done. apply Hs.
  - by destruct (sockets s !! sock).
  - by destruct (sockets s !! sock).
  - by destruct (sockets s !! sock).
  - destruct (sockets s !! sock) as [token|]; [|done].
    rewrite WebSocketFacts.onclose_run. by repeat case_match.
  - by destruct (timers s !! i) as [[d token]|].
Qed.

Lemma run_distinct evs s :
  listeners_distinct s → listeners_distinct (state_of (run VITE_API_URL evs s)).
Proof.
  revert s. induction evs as [|ev evs IH]; intros s Hs; [done|].
  rewrite state_run_cons. by apply IH, step_distinct.
Qed.

End Runs.
End WebSocketRuns.

(** ** The socket client: what holds over every run *)

Module WebSocketMore.
Import Eff EffFacts EffLaws WebSocketClient WebSocketRuns.

(** X1: Whatever happens to a fresh client, the failure count stays between 0
    and the threshold of 5, and every reconnect it schedules waits 2000 ms
    times a number from 1 to 5: never sooner than 2 s, never later than
    10 s. *)
Theorem retry_budget (VITE_API_URL : option string) (evs : list event) :
  attempts_ok (state_of (run VITE_API_URL evs init)) ∧
  Forall delay_ok (delays (trace_of (run VITE_API_URL evs init))) ∧
  Forall (λ d, 2000 ≤ d ≤ 10000) (delays (trace_of (run VITE_API_URL evs init))).
Proof.
  destruct (run_attempts VITE_API_URL evs init) as [Ha Hd].
  { unfold attempts_ok, maxReconnectAttempts. simpl. lia. }
  split; [done|]. split; [done|].
  eapply Forall_impl; [exact Hd|].
  intros d (n & Hn & ->). unfold maxReconnectAttempts in Hn. lia.
Qed.

(** X2: When no retry is pending at the time of [disconnect], reconnection
    stays off: whatever events follow, short of a new call of [connect],
    no socket is opened and no reconnect is scheduled. *)
Theorem no_reconnect_after_disconnect
    (VITE_API_URL : option string) (s : state) (evs : list event) :
  timers s = [] →
  Forall (λ ev, is_connect ev = false) evs →
  let r := run VITE_API_URL evs (state_of (disconnect s)) in
  opened (trace_of r) = [] ∧
  delays (trace_of r) = [] ∧
  shouldReconnect (state_of r) = false.
Proof.
  intros Htm Hevs. cbv zeta.
  destruct (run_quiet VITE_API_URL evs (state_of (disconnect s)) Hevs)
    as (Hoff & Ho & Hd).
  - by rewrite TeardownFacts.disconnect_run.
  - by rewrite TeardownFacts.disconnect_run.
  - done.
Qed.

Lemma no_reconnect_after_disconnect_witness :
  let r := run None [Close 0; TimerFires 0; Message 0 "http_flow" "x";
                     Open 0; Close 0]
             (state_of (disconnect connected)) in
  opened (trace_of r) = [] ∧
  delays (trace_of r) = [] ∧
  shouldReconnect (state_of r) = false.
Proof.
  apply (no_reconnect_after_disconnect None connected).
  - reflexivity.
  - repeat constructor.
Defined.

(** X3: [disconnect] drops every subscription: whatever events follow, short
    of a new call of [on], no callback is invoked. *)
Theorem no_delivery_after_disconnect
    (VITE_API_URL : option string) (s : state) (evs : list event) :
  Forall (λ ev, is_on ev = false) evs →
  delivered (trace_of (run VITE_API_URL evs (state_of (disconnect s)))) = [].
Proof.
  intros Hevs. apply run_silent; [done|].
  by rewrite TeardownFacts.disconnect_run.
Qed.

Lemma no_delivery_after_disconnect_witness :
  delivered (trace_of (onmessage "http_flow" "x" connected)) = [1; 2]%nat ∧
  delivered
    (trace_of (run None [Message 0 "http_flow" "x"; Connect "t";
                         Message 1 "http_flow" "y"]
                 (state_of (disconnect connected)))) = [].
Proof.
  split; [reflexivity|].
  apply (no_delivery_after_disconnect None connected). repeat constructor.
Defined.

(** X4: In every state a fresh client can reach, a message invokes each
    subscribed callback once, however often it was registered. *)
Theorem each_callback_once
    (VITE_API_URL : option string) (evs : list event) (ev data : string) :
  let s := state_of (run VITE_API_URL evs init) in
  delivered (trace_of (onmessage ev data s)) = callbacks s ev ∧
  NoDup (delivered (trace_of (onmessage ev data s))).
Proof.
  cbv zeta. rewrite delivered_onmessage. split; [done|].
  apply run_distinct. intros e. unfold callbacks. cbn.
  rewrite lookup_empty. constructor.
Qed.

Lemma filter_other_snoc (l : list nat) (c : nat) :
  c ∉ l → filter (λ x, x ≠ c) (l ++ [c]) = l.
Proof.
  intros Hc. induction l as [|x l IH].
  - change ([] ++ [c]) with [c].
    rewrite filter_cons, decide_False; [done|]. by intros H.
  - apply not_elem_of_cons in Hc as [Hne Hc].
    change ((x :: l) ++ [c]) with (x :: (l ++ [c])).
    rewrite filter_cons, decide_True by done. f_equal. by apply IH.
Qed.

(** X5: Subscriptions behave as a set.  Registering a callback again changes
    nothing; registering a new one puts it last; [off] with the callback
    takes out that callback alone, so that [on] followed by [off] gives
    back the callbacks there were; [off] without a callback takes out all
    callbacks of the event. *)
Theorem subscribe_unsubscribe (ev : string) (cb : nat) (s : state) :
  state_of (on ev cb (state_of (on ev cb s))) = state_of (on ev cb s) ∧
  callbacks (state_of (off ev (Some cb) s)) ev =
    filter (λ c, c ≠ cb) (callbacks s ev) ∧
  callbacks (state_of (off ev None s)) ev = [] ∧
  (cb ∉ callbacks s ev →
   callbacks (state_of (on ev cb s)) ev = callbacks s ev ++ [cb] ∧
   callbacks (state_of (off ev (Some cb) (state_of (on ev cb s)))) ev =
     callbacks s ev).
Proof.
  assert (Hoff : ∀ s', callbacks (state_of (off ev (Some cb) s')) ev =
                       filter (λ c, c ≠ cb) (callbacks s' ev)).
  { intros s'. rewrite off_run. unfold state_of. cbn [fst snd].
    unfold callbacks at 2.
    destruct (listeners s' !! ev) as [l|] eqn:Hl.
    - rewrite callbacks_insert. by rewrite decide_True.
    - unfold callbacks. by rewrite Hl. }
  assert (Hon : callbacks (state_of (on ev cb s)) ev =
                if decide (cb ∈ callbacks s ev) then callbacks s ev
                else callbacks s ev ++ [cb]).
  { rewrite on_run. unfold state_of. cbn [fst snd].
    rewrite callbacks_insert. by rewrite decide_True. }
  split; [|split; [apply Hoff|split]].
  - rewrite !on_run. unfold state_of. cbn [fst snd].
    destruct s as [w n l b ss cr ts].
    unfold set_listeners.
    cbn [listeners ws reconnectAttempts shouldReconnect sockets created timers].
    rewrite lookup_insert_eq. cbn [default].
    set (X := if decide (cb ∈ default [] (l !! ev)) then _ else _).
    assert (HX : cb ∈ X).
    { unfold X. destruct (decide (cb ∈ default [] (l !! ev))) as [Hin|Hin];
        [exact Hin|]. apply elem_of_app. right.
      by apply list_elem_of_singleton. }
    rewrite (decide_True (P := cb ∈ X)) by done.
    by rewrite insert_insert_eq.
  - rewrite off_run. unfold state_of, callbacks.
    cbn [fst snd listeners set_listeners]. by rewrite lookup_delete_eq.
  - intros Hnew. rewrite Hoff, Hon, decide_False by done. split; [done|].
    by apply filter_other_snoc.
Qed.


Lemma subscribe_unsubscribe_witness :
  callbacks (state_of (on "http_flow" 3 connected)) "http_flow"
    = [1; 2; 3]%nat ∧
  callbacks (state_of (off "http_flow" (Some 3%nat)
                         (state_of (on "http_flow" 3 connected)))) "http_flow"
    = [1; 2]%nat.
Proof.
  destruct (subscribe_unsubscribe "http_flow" 3 connected)
    as (_ & _ & _ & Hnew).
  apply Hnew. vm_compute. intros Hin.
  apply list_elem_of_In in Hin. destruct Hin as [Hin|[Hin|[]]]; discriminate.
Defined.

(** *** The socket address *)

Lemma substring_all (s : string) : String.substring 0 (String.length s) s = s.
Proof. induction s as [|a s IH]; [done|]. cbn. by rewrite IH. Qed.

(** X6: The socket is opened on the API address with its scheme mapped from
    [http] to [ws], so that [https] gives [wss]; an address that does not
    begin with [http] is used as it is; without a configured address the
    client connects to [ws://localhost:8443]. *)
Theorem socket_scheme_follows_api_scheme (rest url token : string) :
  replace_http ("http" +:+ rest) = "ws" +:+ rest ∧
  replace_http ("https" +:+ rest) = "wss" +:+ rest ∧
  (String.prefix "http" url = false → replace_http url = url) ∧
  wsUrl None token = "ws://localhost:8443/ws/traffic?token=" +:+ token ∧
  wsUrl (Some "") token = "ws://localhost:8443/ws/traffic?token=" +:+ token.
Proof.
  assert (Hhttp : ∀ r, replace_http ("http" +:+ r) = "ws" +:+ r).
  { intros r. unfold replace_http.
    cbv beta iota delta [String.append]. cbn.
    replace (String.prefix "" r) with true by (by destruct r).
    by rewrite Nat.sub_0_r, substring_all. }
  split; [apply Hhttp|]. split; [apply (Hhttp ("s" +:+ rest))|].
  split; [|done].
  intros Hp. unfold replace_http. by rewrite Hp.
Qed.

Lemma socket_scheme_follows_api_scheme_witness :
  replace_http "ftp://example.org" = "ftp://example.org" ∧
  replace_http "https://example.org" = "wss://example.org".
Proof.
  destruct (socket_scheme_follows_api_scheme "://example.org"
              "ftp://example.org" "t") as (_ & Hs & Hother & _).
  split; [apply Hother; reflexivity|exact Hs].
Defined.

End WebSocketMore.

(** ** The desktop shell: polling, a full startup, quitting *)

Module DesktopMore.
Import Eff EffFacts Desktop DesktopFacts.

Lemma fetched_cons x t :
  fetched (x :: t) =
  (match x with Fetch _ => 1 | _ => 0 end + fetched t)%nat.
Proof. by destruct x. Qed.

(** The polling loop stops at the first poll that is answered. *)
Lemma waitForBackend_loop_ready before after s :
  Forall (λ ok, ok = false) before →
  waitForBackend_loop (before ++ true :: after) s =
  (Ret tt, s,
   replicate (length before) (Fetch health_url) ++
   [Fetch health_url; LogInfo "[BACKEND] Backend is ready!"]).
Proof.
  induction 1 as [|ok before -> _ IH]; [done|].
  cbn [app waitForBackend_loop length replicate].
  rewrite run_bind. cbn [emit]. by rewrite IH.
Qed.

Lemma waitForBackend_loop_timeout polls s :
  Forall (λ ok, ok = false) polls →
  waitForBackend_loop polls s =
  (Throw no_showErrorBoxSync, s,
   replicate (length polls) (Fetch health_url) ++
   [LogError
      "[FAIL-FAST] Backend Timeout: Backend did not start within 30s"]).
Proof.
  induction 1 as [|ok polls -> _ IH]; [done|].
  cbn [app waitForBackend_loop length replicate].
  rewrite run_bind. cbn [emit]. by rewrite IH.
Qed.

Lemma fetched_replicate n t :
  fetched (replicate n (Fetch health_url) ++ t) = (n + fetched t)%nat.
Proof.
  induction n as [|n IH]; [done|].
  cbn [replicate app]. rewrite fetched_cons, IH. lia.
Qed.

Lemma reported_replicate n t :
  reported (replicate n (Fetch health_url) ++ t) = reported t.
Proof. induction n as [|n IH]; [done|]. exact IH. Qed.

(** X7: [waitForBackend] returns as soon as one poll of the health endpoint is
    answered, having sent one request per poll up to that one and none
    after it; the state is untouched. *)
Theorem waitForBackend_stops_polling_when_ready e s before after :
  healthPolls e = before ++ true :: after →
  Forall (λ ok, ok = false) before →
  let r := waitForBackend e s in
  out_of r = Ret tt ∧
  state_of r = s ∧
  fetched (trace_of r) = S (length before) ∧
  reported (trace_of r) = [].
Proof.
  intros Hp Hb. cbv zeta.
  assert (Hrun : waitForBackend e s =
    (Ret tt, s,
     LogInfo "[BACKEND] Waiting for backend to be ready..." ::
     replicate (length before) (Fetch health_url) ++
     [Fetch health_url; LogInfo "[BACKEND] Backend is ready!"])).
  { unfold waitForBackend. rewrite run_bind. cbn [emit]. rewrite Hp.
    by rewrite (waitForBackend_loop_ready _ _ _ Hb). }
  rewrite Hrun. unfold out_of, state_of, trace_of. cbn [fst snd].
  split; [done|]. split; [done|]. split.
  - rewrite fetched_cons, fetched_replicate. cbn. lia.
  - change (reported (replicate (length before) (Fetch health_url) ++
              [Fetch health_url; LogInfo "[BACKEND] Backend is ready!"]) = []).
    by rewrite reported_replicate.
Qed.

Lemma waitForBackend_timeout_run e s :
  Forall (λ ok, ok = false) (healthPolls e) →
  waitForBackend e s =
  (Throw no_showErrorBoxSync, s,
   LogInfo "[BACKEND] Waiting for backend to be ready..." ::
   replicate (length (healthPolls e)) (Fetch health_url) ++
   [LogError
      "[FAIL-FAST] Backend Timeout: Backend did not start within 30s"]).
Proof.
  intros Hp. unfold waitForBackend. rewrite run_bind. cbn [emit].
  by rewrite (waitForBackend_loop_timeout _ _ Hp).
Qed.

Lemma startBackend_times_out e s :
  Forall (λ ok, ok = false) (healthPolls e) →
  out_of (startBackend e s) = Throw no_showErrorBoxSync.
Proof.
  intros Hp. unfold startBackend.
  rewrite run_bind. cbn [emit]. rewrite run_bind.
  destruct (isDev e); rewrite run_bind; cbn [emit modify];
    by rewrite (waitForBackend_timeout_run _ _ Hp).
Qed.

Lemma checkDependencies_returns e s :
  unmet e = [] → out_of (checkDependencies e s) = Ret tt.
Proof.
  unfold checkDependencies, checkNode, checkBackendBundle, checkUI, unmet.
  generalize (getBackendPath e) (getUIPath e). intros bp up.
  by destruct (majorVersion e <? 18), (isDev e), (existsSync e bp),
    (existsSync e up).
Qed.

(** X8: When no poll within the timeout is answered, [waitForBackend] has
    sent one request per poll, logs the backend timeout and throws, the
    state untouched: the call meant to show the error box is the one that
    throws, so no box is shown and the process is not ended here.  In a
    startup whose dependency checks all pass this makes step 2 the failing
    step, and the handler ends the process with code 1. *)
Theorem waitForBackend_times_out e s :
  Forall (λ ok, ok = false) (healthPolls e) →
  let r := waitForBackend e s in
  out_of r = Throw no_showErrorBoxSync ∧
  state_of r = s ∧
  fetched (trace_of r) = length (healthPolls e) ∧
  reported (trace_of r) = ["Backend Timeout"] ∧
  (unmet e = [] →
   failed_step e = Some 2%nat ∧ exit_code (onReady e init) = Some 1).
Proof.
  intros Hp. cbv zeta. rewrite (waitForBackend_timeout_run _ _ Hp).
  unfold out_of, state_of, trace_of. cbn [fst snd].
  split; [done|]. split; [done|]. split; [|split].
  - rewrite fetched_cons, fetched_replicate. cbn. lia.
  - change (reported (replicate (length (healthPolls e)) (Fetch health_url) ++
      [LogError
         "[FAIL-FAST] Backend Timeout: Backend did not start within 30s"])
      = ["Backend Timeout"]).
    by rewrite reported_replicate.
  - intros Hmet.
    assert (Hk : failed_step e = Some 2%nat).
    { unfold failed_step, startup_steps. cbn [failing_step].
      pose proof (checkDependencies_returns e init Hmet) as Hcd.
      destruct (checkDependencies e init) as [[[[]|?|?] s1] t1];
        try discriminate Hcd.
      pose proof (startBackend_times_out e s1 Hp) as Hsb.
      destruct (startBackend e s1) as [[[[]|?|?] s2] t2];
        by try discriminate Hsb. }
    split; [done|]. by rewrite onReady_exit_code, Hk.
Qed.

Lemma waitForBackend_stops_polling_when_ready_witness :
  let r := waitForBackend env_ok init in
  out_of r = Ret tt ∧ state_of r = init ∧
  fetched (trace_of r) = 3%nat ∧ reported (trace_of r) = [].
Proof.
  apply (waitForBackend_stops_polling_when_ready env_ok init
           [false; false] [true]); [reflexivity|].
  by repeat constructor.
Defined.

Lemma waitForBackend_times_out_witness :
  let r := waitForBackend env_backend_down init in
  out_of r = Throw no_showErrorBoxSync ∧
  state_of r = init ∧
  fetched (trace_of r) = 3%nat ∧
  reported (trace_of r) = ["Backend Timeout"] ∧
  (unmet env_backend_down = [] →
   failed_step env_backend_down = Some 2%nat ∧
   exit_code (onReady env_backend_down init) = Some 1).
Proof.
  apply (waitForBackend_times_out env_backend_down init).
  by repeat constructor.
Defined.

(** *** The steps after a failing step do not run *)

Lemma run_steps_stops steps s k0 k :
  failing_step steps s k0 = Some k →
  run_steps steps s = run_steps (take (S (k - k0)) steps) s.
Proof.
  revert s k0. induction steps as [|m rest IH]; intros s k0; [done|].
  cbn [failing_step take run_steps]. rewrite !run_bind.
  destruct (m s) as [[[[]|msg|c] s1] t1] eqn:Hm; [|done..].
  intros Hk. pose proof (failing_step_range _ _ _ _ Hk) as Hr.
  rewrite (IH _ _ Hk). by replace (k - k0)%nat with (S (k - S k0)) by lia.
Qed.

(** X9: When step [k] of the startup fails, the run of the five steps is the
    run of the first [k]: no later step runs, and in particular no later
    subsystem is started. *)
Theorem startup_stops_at_failing_step e k :
  failed_step e = Some k →
  run_steps (startup_steps e) init =
    run_steps (take k (startup_steps e)) init ∧
  started (trace_of (run_steps (startup_steps e) init)) =
    started (trace_of (run_steps (take k (startup_steps e)) init)) ∧
  (1 ≤ k ≤ 5)%nat.
Proof.
  unfold failed_step. intros Hk.
  pose proof (failing_step_range _ _ _ _ Hk) as Hr.
  pose proof (run_steps_stops _ _ _ _ Hk) as Hrun.
  replace (S (k - 1)) with k in Hrun by lia.
  split; [done|]. split; [by rewrite Hrun at 1|]. cbn in Hr. lia.
Qed.

Lemma startup_stops_at_failing_step_witness :
  run_steps (startup_steps env_no_window) init =
    run_steps (take 3 (startup_steps env_no_window)) init ∧
  started (trace_of (run_steps (startup_steps env_no_window) init)) =
    started (trace_of (run_steps (take 3 (startup_steps env_no_window)) init)) ∧
  (1 ≤ 3 ≤ 5)%nat.
Proof.
  apply (startup_stops_at_failing_step env_no_window 3). reflexivity.
Defined.


(** *** A startup in which every step returns *)

Lemma waitForBackend_loop_keeps polls s :
  state_of (waitForBackend_loop polls s) = s ∧
  started (trace_of (waitForBackend_loop polls s)) = [].
Proof.
  induction polls as [|ok polls IH]; [done|].
  cbn [waitForBackend_loop]. rewrite run_bind. cbn [emit].
  destruct ok; [done|].
  destruct IH as [Hs Ht].
  destruct (waitForBackend_loop polls s) as [[o s2] t2].
  unfold state_of, trace_of in *. cbn [fst snd] in *. by subst.
Qed.

Lemma checkDependencies_starts_nothing e s :
  started (trace_of (checkDependencies e s)) = [].
Proof.
  unfold checkDependencies, checkNode, checkBackendBundle, checkUI.
  generalize (getBackendPath e) (getUIPath e). intros bp up.
  by destruct (majorVersion e <? 18), (isDev e), (existsSync e bp),
    (existsSync e up).
Qed.

Lemma startBackend_result e s :
  state_of (startBackend e s) = set_backendProcess (Some (backend_command e)) s ∧
  started (trace_of (startBackend e s)) = [Backend].
Proof.
  unfold startBackend, waitForBackend, backend_command.
  rewrite run_bind. cbn [emit]. rewrite run_bind.
  destruct (isDev e); rewrite run_bind; cbn [emit modify]; rewrite run_bind;
    cbn [emit];
    match goal with
    | |- context [waitForBackend_loop ?p ?s1] =>
        destruct (waitForBackend_loop_keeps p s1) as [Hs Ht];
        destruct (waitForBackend_loop p s1) as [[[[]|msg|c] s2] t2]
    end;
    unfold state_of, trace_of in *; cbn [fst snd] in *; subst;
    split; try done; unfold started in *; cbn; by rewrite ?Ht.
Qed.

Lemma createWindow_result e s s' t :
  createWindow e s = (Ret tt, s', t) →
  s' = set_mainWindow (Some tt) s ∧ started t = [Window].
Proof.
  unfold createWindow. rewrite run_bind. cbn [emit].
  destruct (createWindowThrows e); [done|]. by intros [= <- <-].
Qed.

Lemma createTray_result e s s' t :
  createTray e s = (Ret tt, s', t) →
  s' = set_tray (Some tt) s ∧ started t = [TrayIcon].
Proof.
  unfold createTray. rewrite run_bind. cbn [emit].
  destruct (createTrayThrows e); [done|]. by intros [= <- <-].
Qed.

Lemma setupAutoUpdater_result e s s' t :
  setupAutoUpdater e s = (Ret tt, s', t) →
  s' = s ∧ started t = if isDev e then [] else [Updater].
Proof.
  unfold setupAutoUpdater. rewrite run_bind. cbn [emit].
  destruct (autoUpdaterThrows e); [done|].
  destruct (isDev e); by intros [= <- <-].
Qed.

Lemma run_steps_cons_ret (m : M unit) rest s s1 t1 :
  m s = (Ret tt, s1, t1) →
  run_steps (m :: rest) s =
  (out_of (run_steps rest s1), state_of (run_steps rest s1),
   t1 ++ trace_of (run_steps rest s1)).
Proof. intros Hm. cbn [run_steps]. by rewrite (run_bind_ret _ _ _ _ _ _ Hm). Qed.

Lemma onReady_success e :
  failed_step e = None →
  let r := onReady e init in
  out_of r = Ret tt ∧
  exit_code r = None ∧
  state_of r =
    {| mainWindow := Some tt; tray := Some tt;
       backendProcess := Some (backend_command e); isQuitting := false |} ∧
  started (trace_of r) =
    [Backend; Window; TrayIcon] ++ (if isDev e then [] else [Updater]) ∧
  stopped (trace_of r) = [].
Proof.
  intros Hk. cbv zeta.
  pose proof (onReady_exit_code e) as Hexit. rewrite Hk in Hexit.
  pose proof (proj1 (calm_onReady e init)) as Hstop.
  unfold failed_step, startup_steps in Hk. cbn [failing_step] in Hk.
  pose proof (checkDependencies_state e init) as H1s.
  pose proof (checkDependencies_starts_nothing e init) as H1t.
  destruct (checkDependencies e init) as [[[[]|?|?] s1] t1] eqn:H1;
    [|done..].
  pose proof (startBackend_result e s1) as [H2s H2t].
  destruct (startBackend e s1) as [[[[]|?|?] s2] t2] eqn:H2; [|done..].
  destruct (createWindow e s2) as [[[[]|?|?] s3] t3] eqn:H3; [|done..].
  destruct (createTray e s3) as [[[[]|?|?] s4] t4] eqn:H4; [|done..].
  destruct (setupAutoUpdater e s4) as [[[[]|?|?] s5] t5] eqn:H5; [|done..].
  unfold state_of, trace_of in H1s, H1t, H2s, H2t. cbn [fst snd] in *.
  subst s1 s2.
  pose proof (createWindow_result _ _ _ _ H3) as [-> H3t].
  pose proof (createTray_result _ _ _ _ H4) as [-> H4t].
  pose proof (setupAutoUpdater_result _ _ _ _ H5) as [-> H5t].
  assert (Hsteps : run_steps (startup_steps e) init =
    (Ret tt,
     set_tray (Some tt)
       (set_mainWindow (Some tt)
          (set_backendProcess (Some (backend_command e)) init)),
     t1 ++ t2 ++ t3 ++ t4 ++ t5 ++ [])).
  { unfold startup_steps.
    rewrite (run_steps_cons_ret _ _ _ _ _ H1).
    rewrite (run_steps_cons_ret _ _ _ _ _ H2).
    rewrite (run_steps_cons_ret _ _ _ _ _ H3).
    rewrite (run_steps_cons_ret _ _ _ _ _ H4).
    by rewrite (run_steps_cons_ret _ _ _ _ _ H5). }
  assert (Hrun : onReady e init =
    (Ret tt,
     set_tray (Some tt)
       (set_mainWindow (Some tt)
          (set_backendProcess (Some (backend_command e)) init)),
     LogInfo "[APP] Electron ready" :: t1 ++ t2 ++ t3 ++ t4 ++ t5 ++ [])).
  { unfold onReady. rewrite run_bind. cbn [emit]. unfold try_catch.
    by rewrite Hsteps. }
  rewrite Hrun in *. split; [done|]. split; [done|]. split; [done|].
  split; [|done].
  unfold trace_of, started in *. cbn [snd omap list_omap start_of].
  rewrite !omap_app, H1t, H2t, H3t, H4t, H5t. cbn [omap list_omap].
  by destruct (isDev e).
Qed.

(** X10: When every step of the startup returns, the handler returns without
    ending the process; the backend process, the window and the tray are
    all held; they were started in this order, followed in a packaged
    build by the update check; nothing was stopped. *)
Theorem startup_brings_everything_up e :
  failed_step e = None →
  let r := onReady e init in
  out_of r = Ret tt ∧
  exit_code r = None ∧
  state_of r =
    {| mainWindow := Some tt; tray := Some tt;
       backendProcess := Some (backend_command e); isQuitting := false |} ∧
  started (trace_of r) =
    [Backend; Window; TrayIcon] ++ (if isDev e then [] else [Updater]) ∧
  stopped (trace_of r) = [].
Proof. apply onReady_success. Qed.

Lemma startup_brings_everything_up_witness :
  let r := onReady env_ok init in
  out_of r = Ret tt ∧
  exit_code r = None ∧
  state_of r =
    {| mainWindow := Some tt; tray := Some tt;
       backendProcess := Some (backend_command env_ok);
       isQuitting := false |} ∧
  started (trace_of r) =
    [Backend; Window; TrayIcon] ++ (if isDev env_ok then [] else [Updater]) ∧
  stopped (trace_of r) = [].
Proof. apply (startup_brings_everything_up env_ok). reflexivity. Defined.



End DesktopMore.

(** ** The axios client: requests *)

Module ApiMore.
Import Eff EffFacts ApiClient ApiFacts.

Lemma onRequest_run config b :
  onRequest config b =
  (Ret (match localStorage b !! "token" with
        | Some token =>
            if String.eqb token "" then config
            else {| headers := <["Authorization" := "Bearer " +:+ token]>
                                 (headers config);
                    method := method config; url := url config |}
        | None => config
        end), b,
   [ConsoleDebug ("[API] Request: " +:+ method config +:+ " " +:+ url config)]).
Proof. reflexivity. Qed.

(** X12: The request interceptor sends the stored token, when there is one
    that is not empty, as [Authorization: Bearer <token>]; it leaves every
    other header, the method and the address of the request alone, and
    without such a token the whole request; it changes nothing in the
    browser. *)
Theorem request_carries_stored_token config b :
  ∃ sent,
    out_of (onRequest config b) = Ret sent ∧
    state_of (onRequest config b) = b ∧
    method sent = method config ∧ url sent = url config ∧
    (∀ h, h ≠ "Authorization" → headers sent !! h = headers config !! h) ∧
    (∀ token, localStorage b !! "token" = Some token → token ≠ "" →
              headers sent !! "Authorization" = Some ("Bearer " +:+ token)) ∧
    (localStorage b !! "token" = None ∨ localStorage b !! "token" = Some "" →
     sent = config).
Proof.
  rewrite onRequest_run. eexists. split; [reflexivity|]. split; [done|].
  destruct (localStorage b !! "token") as [token|] eqn:Htok.
  - destruct (String.eqb_spec token "") as [->|Hne].
    + repeat split; try done. intros t [= <-]. done.
    + repeat split; try done.
      * intros h Hh. cbn. by rewrite lookup_insert_ne.
      * intros t [= <-] _. cbn. by rewrite lookup_insert_eq.
      * intros [[=]|[= ->]]. done.
  - repeat split; try done.
Qed.

Lemma request_carries_stored_token_witness :
  ∃ sent,
    out_of (onRequest get_flows logged_in) = Ret sent ∧
    headers sent !! "Authorization" = Some "Bearer jwt" ∧
    headers sent !! "Content-Type" = Some "application/json".
Proof.
  destruct (request_carries_stored_token get_flows logged_in)
    as (sent & Hout & _ & _ & _ & Hother & Htoken & _).
  exists sent. split; [exact Hout|]. split.
  - apply (Htoken "jwt"); [reflexivity|discriminate].
  - rewrite Hother by discriminate. reflexivity.
Defined.

(** X13: After a 401 answer went through the response interceptor, the next
    request carries no token: it is sent as it was configured. *)
Theorem no_token_sent_after_unauthorized {A} error config b :
  status error = Some 401 →
  out_of (onRequest config (state_of (onResponseError (A:=A) error b)))
    = Ret config.
Proof.
  intros H401. rewrite onRequest_run, onResponseError_run.
  unfold state_of, out_of. cbn [fst snd]. rewrite decide_True by done.
  cbn [localStorage]. by rewrite lookup_delete_eq.
Qed.

Lemma no_token_sent_after_unauthorized_witness :
  out_of (onRequest get_flows
            (state_of (onResponseError (A:=unit) (mkError (Some 401) "expired")
                         logged_in))) = Ret get_flows.
Proof.
  apply (no_token_sent_after_unauthorized (A:=unit)). reflexivity.
Defined.

End ApiMore.

(** ** The traffic store: pushes and fetches *)

Module TrafficMore.
Import TrafficStore TrafficFacts.

Section Flows.
Context {Flow : Type}.
Implicit Types (flow : Flow) (s : TrafficState Flow).

Lemma take_cons_take (n : nat) (x : Flow) (l : list Flow) :
  take n (x :: take n l) = take n (x :: l).
Proof.
  destruct n as [|n]; [done|]. cbn [take]. f_equal.
  rewrite take_take. f_equal. lia.
Qed.

Lemma flows_addFlows new s :
  (length (flows s) ≤ MAX_FLOWS)%nat →
  flows (addFlows new s) = take MAX_FLOWS (rev new ++ flows s).
Proof.
  revert s. induction new as [|flow new IH] using rev_ind; intros s Hs.
  - cbn. by rewrite take_ge.
  - unfold addFlows in *. rewrite foldl_app. cbn [foldl].
    rewrite rev_app_distr. cbn [rev app].
    unfold addFlow at 1. cbn [flows]. unfold slice0.
    rewrite IH by done. apply take_cons_take.
Qed.

(** X14: Below the maximum a pushed flow is put first and nothing is lost. *)
Theorem addFlow_below_capacity_keeps_all flow s :
  (length (flows s) < MAX_FLOWS)%nat →
  flows (addFlow flow s) = flow :: flows s ∧
  totalFlows (addFlow flow s) = totalFlows s ∧
  loading (addFlow flow s) = loading s.
Proof.
  intros Hlen. split; [|done]. unfold addFlow, slice0, MAX_FLOWS in *.
  cbn [flows]. apply take_ge. cbn [length]. lia.
Qed.

(** X15: A series of pushed flows leaves the newest 100 of the pushed and the
    old flows together, the newest first; the list never grows beyond
    100. *)
Theorem addFlows_keeps_newest new s :
  (length (flows s) ≤ MAX_FLOWS)%nat →
  flows (addFlows new s) = take MAX_FLOWS (rev new ++ flows s) ∧
  (length (flows (addFlows new s)) ≤ MAX_FLOWS)%nat ∧
  totalFlows (addFlows new s) = totalFlows s.
Proof.
  intros Hs. rewrite flows_addFlows by done.
  split; [done|]. split; [rewrite length_take; lia|].
  unfold addFlows. clear Hs. revert s.
  induction new as [|flow new IH]; intros s; [done|].
  cbn [foldl]. by rewrite IH.
Qed.

(** X16: A rejected fetch leaves the list and the total as they were; an
    answered one replaces both, whatever the length of the answer; either
    way the store is no longer loading.  The next pushed flow cuts a
    longer answer down to 100. *)
Theorem fetchFlows_replaces_or_keeps response flow s :
  loading (fetchFlows_pending s) = true ∧
  loading (fetchFlows response s) = false ∧
  match response with
  | None =>
      flows (fetchFlows response s) = flows s ∧
      totalFlows (fetchFlows response s) = totalFlows s
  | Some (items, total) =>
      flows (fetchFlows response s) = items ∧
      totalFlows (fetchFlows response s) = total ∧
      flows (addFlow flow (fetchFlows response s)) =
        take MAX_FLOWS (flow :: items)
  end.
Proof. by destruct response as [[items total]|]. Qed.
End Flows.

Lemma addFlow_below_capacity_keeps_all_witness :
  flows (addFlow 7%nat {| flows := [3; 2; 1]%nat; totalFlows := 3;
                          loading := false |}) = [7; 3; 2; 1]%nat.
Proof.
  apply (addFlow_below_capacity_keeps_all 7%nat
           {| flows := [3; 2; 1]%nat; totalFlows := 3; loading := false |}).
  unfold MAX_FLOWS. cbn. lia.
Defined.

Lemma addFlows_keeps_newest_witness :
  flows (addFlows [100; 101]%nat full_store) =
    take MAX_FLOWS (rev [100; 101]%nat ++ flows full_store).
Proof.
  apply (addFlows_keeps_newest [100; 101]%nat full_store). reflexivity.
Defined.

End TrafficMore.

(** ** The web auth store *)

Module WebAuthFacts.
Import Eff EffFacts WebAuth.

Section Store.
Variable VITE_API_URL : option string.
Variable post_login : string → string → LoginData + ApiClient.AxiosError.

Lemma call_run {A} config (answer : A + ApiClient.AxiosError) s :
  call config answer s =
  match answer with
  | inl a =>
      (Ret a, s,
       [Api (ApiClient.ConsoleDebug
               ("[API] Request: " +:+ ApiClient.method config +:+ " " +:+
                ApiClient.url config));
        Api (ApiClient.ConsoleDebug "[API] Response:")])
  | inr err =>
      (Throw (ApiClient.message err),
       set_browser
         (if decide (ApiClient.status err = Some 401)
          then {| ApiClient.localStorage :=
                    delete "token" (ApiClient.localStorage (browser s));
                  ApiClient.location_href := "/login" |}
          else browser s) s,
       [Api (ApiClient.ConsoleDebug
               ("[API] Request: " +:+ ApiClient.method config +:+ " " +:+
                ApiClient.url config));
        Api (ApiClient.ConsoleError (ApiClient.status err)
               (ApiClient.message err))])
  end.
Proof.
  unfold call. rewrite run_bind. unfold lift_api at 1.
  rewrite ApiMore.onRequest_run. destruct s as [b c t u].
  destruct answer as [a|err]; cbn [browser set_browser].
  - done.
  - rewrite run_bind. unfold lift_api.
    rewrite (ApiFacts.onResponseError_run (A:=A)).
    by destruct (decide (ApiClient.status err = Some 401)).
Qed.


Lemma login_run_rejected username password err s :
  post_login username password = inr err →
  login VITE_API_URL post_login username password s =
  (Throw (ApiClient.message err),
   set_browser
     (if decide (ApiClient.status err = Some 401)
      then {| ApiClient.localStorage :=
                delete "token" (ApiClient.localStorage (browser s));
              ApiClient.location_href := "/login" |}
      else browser s) s,
   [ConsoleDebug "[Auth] Logging in...";
    Api (ApiClient.ConsoleDebug "[API] Request: post /api/v1/auth/login");
    Api (ApiClient.ConsoleError (ApiClient.status err)
           (ApiClient.message err))]).
Proof.
  intros Hpost. unfold login. rewrite run_bind. cbn [emit].
  by rewrite run_bind, call_run, Hpost.
Qed.

Lemma logout_run s :
  logout s =
  (Ret tt,
   {| browser :=
        {| ApiClient.localStorage :=
             delete "token" (ApiClient.localStorage (browser s));
           ApiClient.location_href := ApiClient.location_href (browser s) |};
      socket := state_of (WebSocketClient.disconnect (socket s));
      token := None; user := None |},
   ConsoleDebug "[Auth] Logging out" ::
   (Ws <$> trace_of (WebSocketClient.disconnect (socket s)))).
Proof.
  unfold logout. rewrite run_bind. cbn [emit]. rewrite run_bind.
  destruct s as [b c t u]. unfold lift_api at 1. cbn [browser].
  unfold ApiClient.removeItem, modify. cbn [set_browser].
  rewrite run_bind. unfold lift_ws. cbn [socket].
  rewrite !TeardownFacts.disconnect_run. cbn.
  by rewrite app_nil_r.
Qed.



Lemma ws_trace_Ws t : ws_trace (Ws <$> t) = t.
Proof. induction t as [|x t IH]; [done|]. cbn. by f_equal. Qed.


(** X18: A login the server rejects throws to the caller and leaves the store
    and the socket client as they were: no token, no user, no socket.  On
    a status other than 401 the browser is untouched too; on 401 the
    response interceptor has removed any stored token and sent the browser
    to /login. *)
Theorem login_rejected_changes_no_session username password err s :
  post_login username password = inr err →
  let r := login VITE_API_URL post_login username password s in
  out_of r = Throw (ApiClient.message err) ∧
  token (state_of r) = token s ∧
  user (state_of r) = user s ∧
  socket (state_of r) = socket s ∧
  ws_trace (trace_of r) = [] ∧
  (ApiClient.status err ≠ Some 401 → state_of r = s) ∧
  (ApiClient.status err = Some 401 →
   ApiClient.localStorage (browser (state_of r)) !! "token" = None ∧
   ApiClient.location_href (browser (state_of r)) = "/login").
Proof.
  intros Hpost. cbv zeta. rewrite (login_run_rejected _ _ _ _ Hpost).
  unfold out_of, state_of, trace_of. cbn [fst snd].
  destruct s as [b c t u]. cbn [set_browser browser token user socket].
  repeat split; try done.
  - intros Hne. by rewrite decide_False.
  - rewrite decide_True by done. apply lookup_delete_eq.
  - by rewrite decide_True.
Qed.

(** X19: [logout] removes the token from localStorage, clears token and user in
    the store and disconnects the socket client: the current socket, if
    any, is closed, the subscriptions are dropped and reconnection is
    disabled. *)
Theorem logout_clears_session s :
  let r := logout s in
  out_of r = Ret tt ∧
  ApiClient.localStorage (browser (state_of r)) !! "token" = None ∧
  token (state_of r) = None ∧
  user (state_of r) = None ∧
  WebSocketClient.ws (socket (state_of r)) = None ∧
  WebSocketClient.listeners (socket (state_of r)) = ∅ ∧
  WebSocketClient.shouldReconnect (socket (state_of r)) = false ∧
  WebSocketClient.closes (ws_trace (trace_of r)) =
    match WebSocketClient.ws (socket s) with
    | Some sock => [sock] | None => []
    end ∧
  ∀ config,
    out_of (ApiClient.onRequest config (browser (state_of r))) = Ret config.
Proof.
  cbv zeta. rewrite logout_run.
  unfold out_of, state_of, trace_of.
  cbn [fst snd browser token user socket ApiClient.localStorage].
  rewrite TeardownFacts.disconnect_run. cbn [fst snd].
  split; [done|]. split; [apply lookup_delete_eq|].
  repeat (split; [done|]). split.
  - unfold ws_trace. cbn [omap list_omap ws_of].
    change (omap ws_of (Ws <$> ?t)) with (ws_trace (Ws <$> t)).
    rewrite ws_trace_Ws. by destruct (WebSocketClient.ws (socket s)).
  - intros config. rewrite ApiMore.onRequest_run.
    cbn [ApiClient.localStorage]. by rewrite lookup_delete_eq.
Qed.



End Store.


Lemma login_rejected_changes_no_session_witness :
  let r := login None one_user "admin" "wrong" (initial ApiClient.logged_in) in
  out_of r = Throw "Request failed with status code 401" ∧
  token (state_of r) = Some "jwt" ∧
  ApiClient.localStorage (browser (state_of r)) !! "token" = None.
Proof.
  destruct (login_rejected_changes_no_session None one_user "admin" "wrong"
              (ApiClient.mkError (Some 401)
                 "Request failed with status code 401")
              (initial ApiClient.logged_in) eq_refl)
    as (H1 & H2 & _ & _ & _ & _ & H7).
  destruct (H7 eq_refl) as [H8 _].
  exact (conj H1 (conj H2 H8)).
Defined.

End WebAuthFacts.

(** ** The mobile auth store: sessions and the server address *)

Module MobileMore.
Import Eff EffFacts MobileAuth.

Lemma mobile_logout_run w :
  logout w =
  (Ret tt,
   ({| isAuthenticated := false; token := None; serverUrl := serverUrl w.1;
       loading := loading w.1; error := error w.1 |},
    {| api_token := None; baseURL := baseURL w.2 |}),
   [ConsoleLog "[AUTH] Logout"]).
Proof. by destruct w as [a c]. Qed.

Lemma mobile_login_run_ok post_login username password response w :
  post_login username password = inl response →
  login post_login username password w =
  (Ret true,
   ({| isAuthenticated := true; token := Some (access_token response);
       serverUrl := serverUrl w.1; loading := false; error := None |},
    {| api_token := Some (access_token response); baseURL := baseURL w.2 |}),
   [ConsoleLog "[AUTH] Login attempt";
    ConsoleLog ("[API] Login attempt: " +:+ username);
    ConsoleLog "[AUTH] Login successful"]).
Proof.
  intros Hpost. unfold login, api_login.
  rewrite run_bind. cbn [emit]. rewrite run_bind. cbn.
  rewrite run_bind. cbn. rewrite Hpost. by destruct w as [a c].
Qed.

(** X21: After a login the server accepts, the client sends the access token
    as [Authorization: Bearer <token>]; after [logout] the store is
    unauthenticated again, the client has no token and sends no
    [Authorization] header; the server address is kept throughout. *)
Theorem login_then_logout
    (post_login : string → string → AuthResponse + thrown)
    (username password : string) (response : AuthResponse) (w : world) :
  post_login username password = inl response →
  access_token response ≠ "" →
  let w1 := state_of (login post_login username password w) in
  let w2 := state_of (logout w1) in
  authorization w1.2 = Some ("Bearer " +:+ access_token response) ∧
  isAuthenticated w2.1 = false ∧
  token w2.1 = None ∧
  authorization w2.2 = None ∧
  serverUrl w2.1 = serverUrl w.1 ∧
  baseURL w2.2 = baseURL w.2.
Proof.
  intros Hpost Hne. cbv zeta. rewrite (mobile_login_run_ok _ _ _ _ _ Hpost).
  rewrite mobile_logout_run. unfold state_of. cbn [fst snd].
  split; [|done]. unfold authorization. cbn [api_token].
  by destruct (String.eqb_spec (access_token response) "").
Qed.

Lemma login_then_logout_witness :
  let w1 := state_of (login one_user "admin" "secret" fresh) in
  let w2 := state_of (logout w1) in
  authorization w1.2 = Some "Bearer jwt-1" ∧
  isAuthenticated w2.1 = false ∧
  token w2.1 = None ∧
  authorization w2.2 = None ∧
  serverUrl w2.1 = serverUrl fresh.1 ∧
  baseURL w2.2 = baseURL fresh.2.
Proof.
  apply (login_then_logout one_user "admin" "secret"
           {| access_token := "jwt-1"; token_type := "bearer" |} fresh);
    [reflexivity|discriminate].
Defined.

(** X22: [checkConnection] returns whether the server answered.  An answered
    check changes nothing; an unanswered one records the error message and
    changes nothing else.  Setting the server address afterwards clears
    the error and points both the store and the client to the address,
    without touching the session. *)
Theorem checkConnection_then_setServerUrl (health_ok : bool) (url : string)
    (w : world) :
  let r := checkConnection health_ok w in
  let w2 := state_of (setServerUrl url (state_of r)) in
  out_of r = Ret health_ok ∧
  (if health_ok then state_of r = w
   else error (state_of r).1 = Some "Cannot connect to server" ∧
        isAuthenticated (state_of r).1 = isAuthenticated w.1 ∧
        token (state_of r).1 = token w.1 ∧
        serverUrl (state_of r).1 = serverUrl w.1 ∧
        loading (state_of r).1 = loading w.1 ∧
        (state_of r).2 = w.2) ∧
  error w2.1 = None ∧
  serverUrl w2.1 = url ∧
  baseURL w2.2 = Some url ∧
  isAuthenticated w2.1 = isAuthenticated w.1 ∧
  token w2.1 = token w.1 ∧
  api_token w2.2 = api_token w.2.
Proof. by destruct w as [a c], health_ok. Qed.

End MobileMore.
